(** * Light State Management: the manager, embedded and verified

    A shallow embedding of [LightStateManager] (the integration's
    [__init__.py]) together with the constants of [const.py] and the part of
    a config entry the manager reads.  Python dictionaries are finite maps
    ([gmap]), the manager object is a record that the handlers pass along,
    and everything a handler does to the host (driver commands, bus events,
    scheduled tasks) is collected in a trace. *)

From Stdlib Require Import QArith.
From stdpp Require Import gmap strings list fin_maps.

Open Scope string_scope.
Set Warnings "-register-all".

(** ** Values carried by attribute dictionaries and service payloads *)

(** Python values that occur in light attributes and in service data.  A
    float is carried by the rational it denotes: the manager only stores
    and forwards such values, it never computes with them. *)
Inductive value :=
| VNone
| VBool (b : bool)
| VInt (z : Z)
| VFloat (q : Q)
| VStr (s : string)
| VTuple (l : list value).

(** ** [const.py] and the host constants the manager imports *)

Definition DOMAIN := "light_state_management".

Definition DEFAULT_TRANSITION : value := VFloat (1 # 1).
Definition DEFAULT_SAVE_INTERVAL : Z := 300.

Definition SERVICE_SAVE_STATE := "save_state".
Definition SERVICE_RESTORE_STATE := "restore_state".
Definition SERVICE_CLEAR_STATES := "clear_states".

Definition ATTR_ENTITY_ID := "entity_id".
Definition ATTR_BRIGHTNESS := "brightness".
Definition ATTR_COLOR_TEMP := "color_temp".
Definition ATTR_HS_COLOR := "hs_color".
Definition ATTR_RGB_COLOR := "rgb_color".
Definition ATTR_XY_COLOR := "xy_color".
Definition ATTR_EFFECT := "effect".

Definition EVENT_STATE_SAVED := "light_state_saved".
Definition EVENT_STATE_RESTORED := "light_state_restored".

(** From [homeassistant.const]; the values are the host's. *)
Definition SERVICE_TURN_ON := "turn_on".
Definition SERVICE_TURN_OFF := "turn_off".
Definition STATE_ON := "on".

(** ** Host objects *)

(** [homeassistant.core.State]: the reported state string and the
    attribute dictionary. *)
Record State := mkState {
  state : string;
  attributes : gmap string value
}.

(** The data of an [EVENT_STATE_CHANGED] event: [event.data["entity_id"]]
    and [event.data["new_state"]], which is [None] when the entity was
    removed. *)
Record Event := mkEvent {
  ev_entity_id : string;
  ev_new_state : option State
}.

(** A dictionary written by one of the two forms of [config_flow.py]: the
    four keys of their schemas, each possibly absent.  The field that holds
    a key is named after the key's constant. *)
Record config_dict := mkConfig {
  CONF_LIGHTS : option (list string);
  CONF_MOTION_SENSORS : option (list string);
  CONF_TRANSITION : option value;
  CONF_SAVE_INTERVAL : option Z
}.

(** [d.get(key, dflt)] *)
Definition get {A} (d : config_dict) (key : config_dict → option A) (dflt : A) : A :=
  default dflt (key d).

(** [config_entries.ConfigEntry]: [data] is written once by
    [LightStateManagementConfigFlow.async_step_user], [options] by
    [OptionsFlowHandler.async_step_init]. *)
Record ConfigEntry := mkEntry {
  data : config_dict;
  options : config_dict
}.

(** ** The manager object *)

Record LightStateManager := mkManager {
  entry : ConfigEntry;
  _states : gmap string (gmap string value);
  _motion_active : gmap string bool;
  (** the cancel handle of the interval timer, carried as the interval *)
  _cancel_save_interval : option Z;
  _setup_complete : bool
}.

(** [LightStateManager.__init__] *)
Definition __init__ (entry : ConfigEntry) : LightStateManager :=
  {| entry := entry;
     _states := ∅;
     _motion_active := ∅;
     _cancel_save_interval := None;
     _setup_complete := false |}.

Definition set_states (s : gmap string (gmap string value))
    (self : LightStateManager) : LightStateManager :=
  {| entry := entry self;
     _states := s;
     _motion_active := _motion_active self;
     _cancel_save_interval := _cancel_save_interval self;
     _setup_complete := _setup_complete self |}.

Definition set_motion_active (a : gmap string bool)
    (self : LightStateManager) : LightStateManager :=
  {| entry := entry self;
     _states := _states self;
     _motion_active := a;
     _cancel_save_interval := _cancel_save_interval self;
     _setup_complete := _setup_complete self |}.

(** ** What a handler does to the host *)

Inductive effect :=
(** [hass.services.async_call(domain, service, service_data, blocking=True)] *)
| Call (domain service : string) (service_data : gmap string value)
(** [hass.bus.fire(event_type, {"entity_id": entity_id, "state": state})] *)
| Fire (event_type entity_id : string) (state_data : gmap string value)
(** [hass.async_create_task(self._handle_restore_state(call))], with the
    call's entity ids *)
| CreateTask (entity_ids : list string).

Inductive exn :=
| KeyError (key : string)
(** whatever the awaited service call raised *)
| ServiceCallFailed
(** a module has no attribute of that name *)
| AttributeError (name : string).

Inductive outcome :=
| Returned
| Raised (e : exn).

(** The attributes [_get_light_state] looks for, in the order of its loop. *)
Definition RELEVANT_ATTRS : list string :=
  [ATTR_BRIGHTNESS; ATTR_COLOR_TEMP; ATTR_HS_COLOR; ATTR_RGB_COLOR;
   ATTR_XY_COLOR; ATTR_EFFECT].

(** [LightStateManager._get_light_state] *)
Definition _get_light_state (st : State) : gmap string value :=
  let attrs := attributes st in
  foldl (λ data attr,
           match attrs !! attr with
           | Some v => <[attr := v]> data
           | None => data
           end)
        {[ "state" := VStr (state st) ]}
        RELEVANT_ATTRS.

(** [str.startswith] *)
Definition startswith (s pre : string) : bool := String.prefix pre s.

(** ** The handlers, over an abstract host

    The manager reaches the host through two capabilities only: reading the
    current state of an entity and calling a service and waiting for it.
    A handler runs from its invocation to its return (or to the exception
    that leaves it); what else the event loop runs while [restore] awaits a
    service call is outside this model. *)

Section Host.

Variable World : Type.
(** [hass.states.get(entity_id)] *)
Variable states_get : World → string → option State.
(** [await hass.services.async_call(domain, service, data, blocking=True)]:
    the host after the call, and whether the call returned ([true]) or
    raised ([false]). *)
Variable async_call : World → string → string → gmap string value → World * bool.

(** What running a handler leaves behind. *)
Record result := mkResult {
  world : World;
  self_after : LightStateManager;
  effects : list effect;
  outcome_of : outcome
}.

(** Put [es] in front of the trace of what follows. *)
Definition emit (es : list effect) (r : result) : result :=
  {| world := world r;
     self_after := self_after r;
     effects := es ++ effects r;
     outcome_of := outcome_of r |}.

(** [LightStateManager._handle_save_state], on [call.data["entity_id"]].
    The event carries [self._states[entity_id]], the dictionary stored on
    the line before. *)
Fixpoint _handle_save_state (entity_ids : list string) (w : World)
    (self : LightStateManager) : result :=
  match entity_ids with
  | [] => mkResult w self [] Returned
  | entity_id :: rest =>
      if negb (startswith entity_id "light.") then
        _handle_save_state rest w self
      else
        match states_get w entity_id with
        | None => _handle_save_state rest w self
        | Some st =>
            let state_data := _get_light_state st in
            let self := set_states (<[entity_id := state_data]> (_states self)) self in
            emit [Fire EVENT_STATE_SAVED entity_id state_data]
                 (_handle_save_state rest w self)
        end
  end.

(** [{"entity_id": entity_id, "transition": transition}] updated with the
    items of [state_data] whose key is not ["state"]; [dict.update] lets
    the argument's items win. *)
Definition service_data_of (entity_id : string) (transition : value)
    (state_data : gmap string value) : gmap string value :=
  filter (λ kv, kv.1 ≠ "state") state_data
  ∪ {[ "entity_id" := VStr entity_id; "transition" := transition ]}.

(** [state_data["state"] != STATE_ON] *)
Definition not_state_on (v : value) : bool :=
  match v with
  | VStr s => negb (String.eqb s STATE_ON)
  | _ => true
  end.

(** The loop of [_handle_restore_state], with [transition] read before
    it. *)
Fixpoint restore_loop (transition : value) (entity_ids : list string)
    (w : World) (self : LightStateManager) : result :=
  match entity_ids with
  | [] => mkResult w self [] Returned
  | entity_id :: rest =>
      match _states self !! entity_id with
      | None => restore_loop transition rest w self
      | Some state_data =>
          match state_data !! "state" with
          | None => mkResult w self [] (Raised (KeyError "state"))
          | Some s =>
              if not_state_on s then restore_loop transition rest w self
              else
                let service_data := service_data_of entity_id transition state_data in
                let '(w', acknowledged) := async_call w "light" SERVICE_TURN_ON service_data in
                if acknowledged then
                  emit [Call "light" SERVICE_TURN_ON service_data;
                        Fire EVENT_STATE_RESTORED entity_id state_data]
                       (restore_loop transition rest w' self)
                else
                  mkResult w' self [Call "light" SERVICE_TURN_ON service_data]
                           (Raised ServiceCallFailed)
          end
      end
  end.

(** [LightStateManager._handle_restore_state] *)
Definition _handle_restore_state (entity_ids : list string) (w : World)
    (self : LightStateManager) : result :=
  let transition := get (data (entry self)) CONF_TRANSITION DEFAULT_TRANSITION in
  restore_loop transition entity_ids w self.

(** [LightStateManager._handle_clear_states]; [dict.pop(key, None)] is
    [delete], which leaves a map without the key as it is. *)
Fixpoint _handle_clear_states (entity_ids : list string) (w : World)
    (self : LightStateManager) : result :=
  match entity_ids with
  | [] => mkResult w self [] Returned
  | entity_id :: rest =>
      _handle_clear_states rest w (set_states (delete entity_id (_states self)) self)
  end.

(** [LightStateManager._handle_interval_save]; the [now] argument is not
    used by the body. *)
Definition _handle_interval_save (w : World) (self : LightStateManager) : result :=
  if negb (_setup_complete self) then mkResult w self [] Returned
  else
    let entity_ids := get (data (entry self)) CONF_LIGHTS [] in
    _handle_save_state entity_ids w self.

(** [any(self._motion_active.values())] *)
Definition any_values (m : gmap string bool) : bool :=
  bool_decide (map_Exists (λ _ b, b = true) m).

(** [LightStateManager._handle_motion_change]: the restore is handed to
    the event loop, not run. *)
Definition _handle_motion_change (w : World) (self : LightStateManager) : result :=
  if negb (_setup_complete self) then mkResult w self [] Returned
  else if any_values (_motion_active self) then
    let entity_ids := get (data (entry self)) CONF_LIGHTS [] in
    mkResult w self [CreateTask entity_ids] Returned
  else mkResult w self [] Returned.

(** [entity_id not in motion_sensors] *)
Definition not_in (x : string) (l : list string) : bool :=
  negb (bool_decide (x ∈ l)).

(** The closure [handle_motion] that [async_setup] registers; it captures
    [motion_sensors] and [self]. *)
Definition handle_motion (motion_sensors : list string) (event : Event)
    (w : World) (self : LightStateManager) : result :=
  let entity_id := ev_entity_id event in
  if not_in entity_id motion_sensors then mkResult w self [] Returned
  else
    match ev_new_state event with
    | None => mkResult w self [] Returned
    | Some new_state =>
        let self :=
          set_motion_active
            (<[entity_id := String.eqb (state new_state) STATE_ON]> (_motion_active self))
            self in
        _handle_motion_change w self
    end.

(** ** Setup, teardown and the host's dispatch *)

(** The bound methods that [async_setup] registers as service handlers. *)
Inductive handler :=
| save_state_handler
| restore_state_handler
| clear_states_handler.

(** What the host holds on behalf of the manager: the services
    registered under [DOMAIN], the running interval timer (its period in
    seconds), the [EVENT_STATE_CHANGED] listener (the [motion_sensors]
    that [handle_motion] captured) and the restore tasks created and not
    yet run. *)
Record Registry := mkRegistry {
  services : gmap string handler;
  time_interval : option Z;
  state_listener : option (list string);
  tasks : list (list string)
}.

Definition no_registrations : Registry := mkRegistry ∅ None None [].

(** [hass.services.async_register(DOMAIN, name, h, schema=...)] *)
Definition async_register (name : string) (h : handler) (reg : Registry) : Registry :=
  mkRegistry (<[name := h]> (services reg)) (time_interval reg)
             (state_listener reg) (tasks reg).

(** [hass.services.async_remove(DOMAIN, name)] *)
Definition async_remove (name : string) (reg : Registry) : Registry :=
  mkRegistry (delete name (services reg)) (time_interval reg)
             (state_listener reg) (tasks reg).

(** [async_track_time_interval(hass, self._handle_interval_save, timedelta(seconds=n))] *)
Definition async_track_time_interval (n : Z) (reg : Registry) : Registry :=
  mkRegistry (services reg) (Some n) (state_listener reg) (tasks reg).

(** calling the handle that [async_track_time_interval] returned *)
Definition cancel_time_interval (reg : Registry) : Registry :=
  mkRegistry (services reg) None (state_listener reg) (tasks reg).

(** [hass.bus.async_listen(EVENT_STATE_CHANGED, handle_motion)] *)
Definition async_listen (motion_sensors : list string) (reg : Registry) : Registry :=
  mkRegistry (services reg) (time_interval reg) (Some motion_sensors) (tasks reg).

Definition set_tasks (t : list (list string)) (reg : Registry) : Registry :=
  mkRegistry (services reg) (time_interval reg) (state_listener reg) t.

(** [dt_util.timedelta(seconds=n)].  [dt_util] is [homeassistant.util.dt];
    that module does [import datetime as dt] and binds no name
    [timedelta], so looking the attribute up raises [AttributeError]
    whatever [n] is. *)
Definition dt_util_timedelta (seconds : Z) : Z + exn :=
  inr (AttributeError "timedelta").

(** [LightStateManager.async_setup]: the manager and the registrations it
    leaves, and how it ends.  The arguments of [async_track_time_interval]
    are evaluated before the call, so the error of [dt_util.timedelta]
    leaves [async_setup] after the three registrations: the timer is not
    started, the listener is not registered and [_setup_complete] is not
    set. *)
Definition async_setup (self : LightStateManager) (reg : Registry)
    : LightStateManager * Registry * outcome :=
  let reg := async_register SERVICE_SAVE_STATE save_state_handler reg in
  let reg := async_register SERVICE_RESTORE_STATE restore_state_handler reg in
  let reg := async_register SERVICE_CLEAR_STATES clear_states_handler reg in
  let save_interval := get (data (entry self)) CONF_SAVE_INTERVAL DEFAULT_SAVE_INTERVAL in
  let timer :=
    if (0 <? save_interval)%Z
    then match dt_util_timedelta save_interval with
         | inl period => inl (Some period, async_track_time_interval period reg)
         | inr e => inr e
         end
    else inl (_cancel_save_interval self, reg) in
  match timer with
  | inr e => (self, reg, Raised e)
  | inl (cancel, reg) =>
      let reg :=
        match CONF_MOTION_SENSORS (data (entry self)) with
        | Some (sensor :: others) => async_listen (sensor :: others) reg
        | _ => reg
        end in
      ({| entry := entry self;
          _states := _states self;
          _motion_active := _motion_active self;
          _cancel_save_interval := cancel;
          _setup_complete := true |}, reg, Returned)
  end.

(** [LightStateManager.async_unload] *)
Definition async_unload (self : LightStateManager) (reg : Registry)
    : LightStateManager * Registry :=
  let reg :=
    match _cancel_save_interval self with
    | Some _ => cancel_time_interval reg
    | None => reg
    end in
  let reg := async_remove SERVICE_SAVE_STATE reg in
  let reg := async_remove SERVICE_RESTORE_STATE reg in
  let reg := async_remove SERVICE_CLEAR_STATES reg in
  (self, reg).

(** The host with one manager in it. *)
Record System := mkSystem {
  hass : World;
  manager : LightStateManager;
  registry : Registry
}.

(** The host after the module's [async_setup_entry] ran: a fresh manager
    and what its [async_setup] got done, whether it returned or raised. *)
Definition async_setup_entry (w : World) (e : ConfigEntry) : System :=
  let '(self, reg, _) := async_setup (__init__ e) no_registrations in
  mkSystem w self reg.

(** How the module's [async_setup_entry] ends: it returns [True], or the
    error of [async_setup] leaves it. *)
Definition async_setup_entry_outcome (e : ConfigEntry) : outcome :=
  (async_setup (__init__ e) no_registrations).2.

(** What can happen to the system after that. *)
Inductive stimulus :=
(** a call of [DOMAIN.service] with [{"entity_id": entity_ids}] *)
| ServiceCall (service : string) (entity_ids : list string)
(** the period of the interval timer elapses *)
| TimeInterval
(** an [EVENT_STATE_CHANGED] event on the bus *)
| StateChanged (event : Event)
(** the event loop runs the oldest restore task *)
| RunTask
(** the rest of the host moves on (lights change, time passes) *)
| HostChange (w : World)
(** the module's [async_unload_entry] *)
| Unload.

Definition run_handler (h : handler) : list string → World → LightStateManager → result :=
  match h with
  | save_state_handler => _handle_save_state
  | restore_state_handler => _handle_restore_state
  | clear_states_handler => _handle_clear_states
  end.

(** The tasks that a trace asks the loop to create. *)
Definition created_tasks (es : list effect) : list (list string) :=
  omap (λ e, match e with CreateTask ids => Some ids | _ => None end) es.

(** The system after a handler ran, with the tasks it created queued. *)
Definition after (s : System) (r : result) : System * list effect :=
  (mkSystem (world r) (self_after r)
            (set_tasks (tasks (registry s) ++ created_tasks (effects r)) (registry s)),
   effects r).

(** The host delivers a stimulus: to the handler registered for it, or to
    nobody. *)
Definition deliver (s : System) (x : stimulus) : System * list effect :=
  match x with
  | ServiceCall name entity_ids =>
      match services (registry s) !! name with
      | Some h => after s (run_handler h entity_ids (hass s) (manager s))
      | None => (s, [])
      end
  | TimeInterval =>
      match time_interval (registry s) with
      | Some _ => after s (_handle_interval_save (hass s) (manager s))
      | None => (s, [])
      end
  | StateChanged event =>
      match state_listener (registry s) with
      | Some motion_sensors =>
          after s (handle_motion motion_sensors event (hass s) (manager s))
      | None => (s, [])
      end
  | RunTask =>
      match tasks (registry s) with
      | entity_ids :: pending =>
          after (mkSystem (hass s) (manager s) (set_tasks pending (registry s)))
                (_handle_restore_state entity_ids (hass s) (manager s))
      | [] => (s, [])
      end
  | HostChange w => (mkSystem w (manager s) (registry s), [])
  | Unload =>
      let '(self, reg) := async_unload (manager s) (registry s) in
      (mkSystem (hass s) self reg, [])
  end.

(** A run: the stimuli delivered in order, the traces concatenated. *)
Fixpoint run (s : System) (xs : list stimulus) : System * list effect :=
  match xs with
  | [] => (s, [])
  | x :: xs =>
      let '(s1, es1) := deliver s x in
      let '(s2, es2) := run s1 xs in
      (s2, (es1 ++ es2)%list)
  end.

End Host.

Arguments mkResult {World} _ _ _ _.
Arguments world {World} _.
Arguments self_after {World} _.
Arguments effects {World} _.
Arguments outcome_of {World} _.
Arguments emit {World} _ _.
Arguments _handle_save_state {World} _ _ _ _.
Arguments restore_loop {World} _ _ _ _ _.
Arguments _handle_restore_state {World} _ _ _ _.
Arguments _handle_clear_states {World} _ _ _.
Arguments _handle_interval_save {World} _ _ _.
Arguments _handle_motion_change {World} _ _.
Arguments handle_motion {World} _ _ _ _.
Arguments mkSystem {World} _ _ _.
Arguments hass {World} _.
Arguments manager {World} _.
Arguments registry {World} _.
Arguments async_setup_entry {World} _ _.
Arguments ServiceCall {World} _ _.
Arguments TimeInterval {World}.
Arguments StateChanged {World} _.
Arguments RunTask {World}.
Arguments HostChange {World} _.
Arguments Unload {World}.
Arguments run_handler {World} _ _ _ _ _ _.
Arguments after {World} _ _.
Arguments deliver {World} _ _ _ _.
Arguments run {World} _ _ _ _.

(** ** A concrete host, for examples

    The world is the state machine's table of entity states; a turn-on call
    fails exactly for the lights listed as broken. *)

Module Demo.

Definition World : Type := gmap string State * list string.

Definition states_get (w : World) (entity_id : string) : option State :=
  w.1 !! entity_id.

Definition async_call (w : World) (domain service : string)
    (service_data : gmap string value) : World * bool :=
  match service_data !! "entity_id" with
  | Some (VStr entity_id) => (w, negb (bool_decide (entity_id ∈ w.2)))
  | _ => (w, false)
  end.

Definition kitchen_on : State :=
  mkState "on" {[ "brightness" := VInt 200; "friendly_name" := VStr "Kitchen" ]}.

Definition desk_on : State :=
  mkState "on" {[ "rgb_color" := VTuple [VInt 255; VInt 0; VInt 0];
                  "effect" := VStr "colorloop" ]}.

Definition hall_off : State := mkState "off" {[ "brightness" := VNone ]}.

Definition entities : gmap string State :=
  {[ "light.kitchen" := kitchen_on; "light.desk" := desk_on;
     "light.hall" := hall_off; "switch.x" := mkState "on" ∅ ]}.

(** every light answers *)
Definition home : World := (entities, []).

(** the desk light does not *)
Definition broken_home : World := (entities, ["light.desk"]).

Definition conf : config_dict :=
  mkConfig (Some ["light.kitchen"; "light.hall"]) (Some ["binary_sensor.a"; "binary_sensor.b"])
           (Some (VFloat (5 # 2))) (Some 60%Z).

Definition the_entry : ConfigEntry := mkEntry conf (mkConfig None None None None).

(** the same data, with options as the options flow writes them *)
Definition edited_entry : ConfigEntry :=
  mkEntry conf (mkConfig (Some ["light.desk"]) (Some []) (Some (VInt 0)) (Some 3600%Z)).

(** periodic save switched off *)
Definition no_interval_entry : ConfigEntry :=
  mkEntry (mkConfig (Some ["light.kitchen"]) None None (Some 0%Z))
          (mkConfig None None None None).

(** two lights and two sensors, periodic save switched off: the setup of
    this entry completes *)
Definition motion_entry : ConfigEntry :=
  mkEntry (mkConfig (Some ["light.kitchen"; "light.hall"])
                    (Some ["binary_sensor.a"; "binary_sensor.b"])
                    (Some (VFloat (5 # 2))) (Some 0%Z))
          (mkConfig None None None None).

(** the manager after a save over the three lights and a switch *)
Definition saved : LightStateManager :=
  self_after (_handle_save_state states_get
                ["light.kitchen"; "switch.x"; "light.desk"; "light.hall"]
                home (__init__ the_entry)).

End Demo.

(** ** Notions used to state the properties *)

Section Notions.

Context {World : Type} (states_get : World → string → option State).

(** The snapshot that a save stores for [entity_id], if it stores one:
    the identifier is in the light domain and the host has a state for
    it. *)
Definition saved_snapshot (w : World) (entity_id : string) : option (gmap string value) :=
  if startswith entity_id "light." then _get_light_state <$> states_get w entity_id
  else None.

(** The notification that goes with it. *)
Definition saved_event (w : World) (entity_id : string) : option effect :=
  Fire EVENT_STATE_SAVED entity_id <$> saved_snapshot w entity_id.

End Notions.

(** Every snapshot in the store was captured by [_get_light_state]. *)
Definition captured (store : gmap string (gmap string value)) : Prop :=
  map_Forall (λ _ state_data, ∃ st, state_data = _get_light_state st) store.

(** Every key of the store starts with ["light."]. *)
Definition light_keys (store : gmap string (gmap string value)) : Prop :=
  map_Forall (λ entity_id _, startswith entity_id "light." = true) store.

(** The stored snapshot of [entity_id] says the light was on. *)
Definition stored_on (self : LightStateManager) (entity_id : string) : Prop :=
  ∃ state_data, _states self !! entity_id = Some state_data
                ∧ state_data !! "state" = Some (VStr STATE_ON).

(** The entity a command or a notification is about: the ["entity_id"] of
    the service data or of the event data. *)
Definition effect_entity (e : effect) : option value :=
  match e with
  | Call _ _ service_data => service_data !! "entity_id"
  | Fire _ entity_id _ => Some (VStr entity_id)
  | CreateTask _ => None
  end.

(** The command and the notification of one restored light. *)
Inductive restore_effect (self : LightStateManager) (transition : value)
    (entity_id : string) : effect → Prop :=
| restore_effect_call state_data :
    _states self !! entity_id = Some state_data →
    state_data !! "state" = Some (VStr STATE_ON) →
    restore_effect self transition entity_id
      (Call "light" SERVICE_TURN_ON (service_data_of entity_id transition state_data))
| restore_effect_fire state_data :
    _states self !! entity_id = Some state_data →
    state_data !! "state" = Some (VStr STATE_ON) →
    restore_effect self transition entity_id
      (Fire EVENT_STATE_RESTORED entity_id state_data).

(** Some sensor's flag in the motion map is true. *)
Definition some_active (m : gmap string bool) : Prop :=
  ∃ sensor, m !! sensor = Some true.

(** The manager with another config entry, all else equal. *)
Definition with_entry (e : ConfigEntry) (self : LightStateManager) : LightStateManager :=
  {| entry := e;
     _states := _states self;
     _motion_active := _motion_active self;
     _cancel_save_interval := _cancel_save_interval self;
     _setup_complete := _setup_complete self |}.

(** Two managers agree on what no handler assigns after setup. *)
Definition stable (self self' : LightStateManager) : Prop :=
  entry self' = entry self
  ∧ _cancel_save_interval self' = _cancel_save_interval self
  ∧ _setup_complete self' = _setup_complete self.

(** A result with the manager in it changed by [f]. *)
Definition on_self {World : Type} (f : LightStateManager → LightStateManager)
    (r : result World) : result World :=
  mkResult (world r) (f (self_after r)) (effects r) (outcome_of r).

(** A system whose manager holds another config entry. *)
Definition system_with_entry {World : Type} (e : ConfigEntry) (s : System World)
    : System World :=
  mkSystem (hass s) (with_entry e (manager s)) (registry s).

(** The listener that the entry data [d] asks for: [handle_motion] with
    the configured sensors, when there are any. *)
Definition listener_of (d : config_dict) : option (list string) :=
  match CONF_MOTION_SENSORS d with
  | Some (sensor :: others) => Some (sensor :: others)
  | _ => None
  end.

(** ** Further notions: traces, restored lights, reported motion *)

Definition is_call (e : effect) : bool :=
  match e with Call _ _ _ => true | _ => false end.

Definition is_fire (e : effect) : bool :=
  match e with Fire _ _ _ => true | _ => false end.

(** The number of commands in a trace. *)
Definition count_calls (es : list effect) : nat := length (List.filter is_call es).

(** The number of notifications in a trace. *)
Definition count_fires (es : list effect) : nat := length (List.filter is_fire es).

(** What restore does for one identifier when its command is acknowledged:
    nothing without a snapshot or with a snapshot that is not on, the
    command and then the notification otherwise. *)
Definition restore_block (self : LightStateManager) (transition : value)
    (entity_id : string) : list effect :=
  match _states self !! entity_id with
  | None => []
  | Some state_data =>
      match state_data !! "state" with
      | None => []
      | Some s =>
          if not_state_on s then []
          else [Call "light" SERVICE_TURN_ON
                  (service_data_of entity_id transition state_data);
                Fire EVENT_STATE_RESTORED entity_id state_data]
      end
  end.

(** The effects a manager can have on the host: a turn-on of a
    light, one of its two notifications, or a restore task over [lights]. *)
Inductive manager_effect (lights : list string) : effect → Prop :=
| manager_turn_on service_data :
    manager_effect lights (Call "light" SERVICE_TURN_ON service_data)
| manager_saved entity_id state_data :
    manager_effect lights (Fire EVENT_STATE_SAVED entity_id state_data)
| manager_restored entity_id state_data :
    manager_effect lights (Fire EVENT_STATE_RESTORED entity_id state_data)
| manager_task :
    manager_effect lights (CreateTask lights).

(** What the last state-change notification that [handle_motion] takes up
    reported for [sensor]: the notification is about [sensor], [sensor] is
    among [motion_sensors], and it has a new state. *)
Fixpoint last_reported {World : Type} (motion_sensors : list string) (sensor : string)
    (xs : list (stimulus World)) : option bool :=
  match xs with
  | [] => None
  | x :: xs =>
      match last_reported motion_sensors sensor xs with
      | Some b => Some b
      | None =>
          match x with
          | StateChanged event =>
              if bool_decide (ev_entity_id event = sensor ∧ sensor ∈ motion_sensors)
              then (λ new_state, String.eqb (state new_state) STATE_ON) <$> ev_new_state event
              else None
          | _ => None
          end
      end
  end.

(** A system that has not been unloaded: its services are among the three
    of setup, and a running timer has its cancel handle in the manager. *)
Definition loaded {World : Type} (s : System World) : Prop :=
  (∀ name, is_Some (services (registry s) !! name) →
           name = SERVICE_SAVE_STATE ∨ name = SERVICE_RESTORE_STATE
           ∨ name = SERVICE_CLEAR_STATES)
  ∧ (time_interval (registry s) = None ∨ is_Some (_cancel_save_interval (manager s))).

(** A system after unloading: no service, no timer. *)
Definition unloaded {World : Type} (s : System World) : Prop :=
  services (registry s) = ∅ ∧ time_interval (registry s) = None.

(** ** The module's entry points, over a host with several entries

    [async_setup_entry] and [async_unload_entry] keep the managers in
    [hass.data[DOMAIN]], keyed by the entry id.  A manager is an object:
    the services, the timer, the listener and the tasks of the host refer
    to it, and go on doing so after the entry point has dropped it from
    [hass.data].  The objects are kept in a list and referred to by their
    position.  The entry id, which [ConfigEntry] above does not carry, is
    passed beside the entry. *)

Module Entries.

Section Host.

Variable World : Type.
Variable states_get : World → string → option State.
Variable async_call : World → string → string → gmap string value → World * bool.

Record Hass := mkHass {
  (** the rest of the host *)
  hass_world : World;
  (** [hass.data.get(DOMAIN)]: absent, or entry id to manager *)
  hass_data : option (gmap string nat);
  (** every [LightStateManager] constructed so far *)
  objects : list LightStateManager;
  (** the services registered under [DOMAIN]: a bound method each *)
  hass_services : gmap string (nat * handler);
  (** the running interval timers, by the manager whose
      [_handle_interval_save] they call, with their period *)
  hass_timers : gmap nat Z;
  (** the [EVENT_STATE_CHANGED] listeners in the order of registration:
      a [handle_motion] closure each, with its manager and its
      [motion_sensors] *)
  hass_listeners : list (nat * list string);
  (** the restore tasks created and not yet run *)
  hass_tasks : list (nat * list string)
}.

Definition fresh_hass (w : World) : Hass := mkHass w None [] ∅ ∅ [] [].

Definition set_data (d : option (gmap string nat)) (h : Hass) : Hass :=
  mkHass (hass_world h) d (objects h) (hass_services h) (hass_timers h)
         (hass_listeners h) (hass_tasks h).

Definition set_objects (l : list LightStateManager) (h : Hass) : Hass :=
  mkHass (hass_world h) (hass_data h) l (hass_services h) (hass_timers h)
         (hass_listeners h) (hass_tasks h).

Definition set_services (s : gmap string (nat * handler)) (h : Hass) : Hass :=
  mkHass (hass_world h) (hass_data h) (objects h) s (hass_timers h)
         (hass_listeners h) (hass_tasks h).

Definition set_timers (t : gmap nat Z) (h : Hass) : Hass :=
  mkHass (hass_world h) (hass_data h) (objects h) (hass_services h) t
         (hass_listeners h) (hass_tasks h).

Definition set_listeners (l : list (nat * list string)) (h : Hass) : Hass :=
  mkHass (hass_world h) (hass_data h) (objects h) (hass_services h) (hass_timers h)
         l (hass_tasks h).

(** [hass.services.async_register(DOMAIN, name, method of o)]: a service
    already registered under the name is replaced. *)
Definition register (name : string) (o : nat) (m : handler) (h : Hass) : Hass :=
  set_services (<[name := (o, m)]> (hass_services h)) h.

(** [hass.services.async_remove(DOMAIN, name)] *)
Definition remove (name : string) (h : Hass) : Hass :=
  set_services (delete name (hass_services h)) h.

(** [LightStateManager.async_setup], run on the object [o]: the host it
    leaves and how it ends.  As above, the error of [dt_util.timedelta]
    leaves it after the three registrations. *)
Definition async_setup (o : nat) (h : Hass) : Hass * outcome :=
  match objects h !! o with
  | None => (h, Returned)
  | Some self =>
      let h := register SERVICE_SAVE_STATE o save_state_handler h in
      let h := register SERVICE_RESTORE_STATE o restore_state_handler h in
      let h := register SERVICE_CLEAR_STATES o clear_states_handler h in
      let save_interval := get (data (entry self)) CONF_SAVE_INTERVAL DEFAULT_SAVE_INTERVAL in
      let timer :=
        if (0 <? save_interval)%Z
        then match dt_util_timedelta save_interval with
             | inl period =>
                 inl (Some period, set_timers (<[o := period]> (hass_timers h)) h)
             | inr e => inr e
             end
        else inl (_cancel_save_interval self, h) in
      match timer with
      | inr e => (h, Raised e)
      | inl (cancel, h) =>
          let h :=
            match CONF_MOTION_SENSORS (data (entry self)) with
            | Some (sensor :: others) =>
                set_listeners (hass_listeners h ++ [(o, sensor :: others)]) h
            | _ => h
            end in
          (set_objects (<[o := {| entry := entry self;
                                  _states := _states self;
                                  _motion_active := _motion_active self;
                                  _cancel_save_interval := cancel;
                                  _setup_complete := true |}]> (objects h)) h,
           Returned)
      end
  end.

(** [LightStateManager.async_unload], run on the object [o] *)
Definition async_unload (o : nat) (h : Hass) : Hass :=
  match objects h !! o with
  | None => h
  | Some self =>
      let h :=
        match _cancel_save_interval self with
        | Some _ => set_timers (delete o (hass_timers h)) h
        | None => h
        end in
      let h := remove SERVICE_SAVE_STATE h in
      let h := remove SERVICE_RESTORE_STATE h in
      remove SERVICE_CLEAR_STATES h
  end.

(** How a call of an entry point ends. *)
Inductive completion :=
| Return (v : bool)
| Raise (e : exn).

(** The module's [async_setup_entry(hass, entry)]: the manager is in
    [hass.data] before [async_setup] runs, and an error of [async_setup]
    leaves the entry point with it. *)
Definition async_setup_entry (entry_id : string) (e : ConfigEntry) (h : Hass)
    : Hass * completion :=
  let domain_data := default ∅ (hass_data h) in
  let manager := length (objects h) in
  let h := set_objects (objects h ++ [__init__ e]) h in
  let h := set_data (Some (<[entry_id := manager]> domain_data)) h in
  match async_setup manager h with
  | (h, Returned) => (h, Return true)
  | (h, Raised err) => (h, Raise err)
  end.

(** The module's [async_unload_entry(hass, entry)]; [unload_ok] is [True]. *)
Definition async_unload_entry (entry_id : string) (h : Hass) : Hass * completion :=
  match hass_data h with
  | None => (h, Raise (KeyError DOMAIN))
  | Some domain_data =>
      match domain_data !! entry_id with
      | None => (h, Raise (KeyError entry_id))
      | Some manager =>
          let h := set_data (Some (delete entry_id domain_data)) h in
          let h := async_unload manager h in
          (h, Return true)
      end
  end.

(** The host runs a handler of the object [o] and queues the tasks it
    creates. *)
Definition on_object (o : nat) (f : World → LightStateManager → result World)
    (h : Hass) : Hass * list effect :=
  match objects h !! o with
  | None => (h, [])
  | Some self =>
      let r := f (hass_world h) self in
      (mkHass (world r) (hass_data h) (<[o := self_after r]> (objects h))
              (hass_services h) (hass_timers h) (hass_listeners h)
              (hass_tasks h ++ ((λ ids, (o, ids)) <$> created_tasks (effects r))),
       effects r)
  end.

(** A call of [DOMAIN.name] with [{"entity_id": entity_ids}] *)
Definition call_service (name : string) (entity_ids : list string) (h : Hass)
    : Hass * list effect :=
  match hass_services h !! name with
  | Some (o, m) => on_object o (run_handler states_get async_call m entity_ids) h
  | None => (h, [])
  end.

(** The period of the timer of [o] elapses. *)
Definition time_interval_elapsed (o : nat) (h : Hass) : Hass * list effect :=
  match hass_timers h !! o with
  | Some _ => on_object o (_handle_interval_save states_get) h
  | None => (h, [])
  end.

(** An [EVENT_STATE_CHANGED] event goes to the listeners [ls] in turn. *)
Fixpoint notify (ls : list (nat * list string)) (event : Event) (h : Hass)
    : Hass * list effect :=
  match ls with
  | [] => (h, [])
  | (o, motion_sensors) :: ls =>
      let '(h1, es1) := on_object o (handle_motion motion_sensors event) h in
      let '(h2, es2) := notify ls event h1 in
      (h2, (es1 ++ es2)%list)
  end.

(** An [EVENT_STATE_CHANGED] event on the bus *)
Definition state_changed (event : Event) (h : Hass) : Hass * list effect :=
  notify (hass_listeners h) event h.

End Host.

End Entries.

Arguments Entries.mkHass {World} _ _ _ _ _ _ _.
Arguments Entries.hass_world {World} _.
Arguments Entries.hass_data {World} _.
Arguments Entries.objects {World} _.
Arguments Entries.hass_services {World} _.
Arguments Entries.hass_timers {World} _.
Arguments Entries.hass_listeners {World} _.
Arguments Entries.hass_tasks {World} _.
Arguments Entries.fresh_hass {World} _.
Arguments Entries.async_setup {World} _ _.
Arguments Entries.async_unload {World} _ _.
Arguments Entries.async_setup_entry {World} _ _ _.
Arguments Entries.async_unload_entry {World} _ _.
Arguments Entries.on_object {World} _ _ _.
Arguments Entries.call_service {World} _ _ _ _ _.
Arguments Entries.time_interval_elapsed {World} _ _ _.
Arguments Entries.notify {World} _ _ _.
Arguments Entries.state_changed {World} _ _.

(** The manager that [async_setup] leaves of a fresh one: marked set up
    when it returned, as [__init__] built it when it raised. *)
Definition set_up (e : ConfigEntry) : LightStateManager :=
  {| entry := e;
     _states := ∅;
     _motion_active := ∅;
     _cancel_save_interval := None;
     _setup_complete :=
       negb (0 <? get (data e) CONF_SAVE_INTERVAL DEFAULT_SAVE_INTERVAL)%Z |}.

(** How the module's [async_setup_entry] ends for the entry [e]. *)
Definition setup_completion (e : ConfigEntry) : Entries.completion :=
  if (0 <? get (data e) CONF_SAVE_INTERVAL DEFAULT_SAVE_INTERVAL)%Z
  then Entries.Raise (AttributeError "timedelta") else Entries.Return true.

(** The listener that [async_setup] registers for the entry data [d]:
    none when it raises before it gets there. *)
Definition registered_listener (d : config_dict) : option (list string) :=
  if (0 <? get d CONF_SAVE_INTERVAL DEFAULT_SAVE_INTERVAL)%Z then None
  else listener_of d.

(** The sensors whose notifications reach the manager. *)
Definition listened_sensors (d : config_dict) : list string :=
  default [] (registered_listener d).

(** The handler that setup registers under a service name. *)
Definition domain_service (name : string) : option handler :=
  if String.eqb name SERVICE_SAVE_STATE then Some save_state_handler
  else if String.eqb name SERVICE_RESTORE_STATE then Some restore_state_handler
  else if String.eqb name SERVICE_CLEAR_STATES then Some clear_states_handler
  else None.

(** ** [config_flow.py]: the two forms *)

(** The keys of the forms, as [const.py] spells them. *)
Definition KEY_LIGHTS := "lights".
Definition KEY_MOTION_SENSORS := "motion_sensors".
Definition KEY_TRANSITION := "transition".
Definition KEY_SAVE_INTERVAL := "save_interval".

(** [selector.EntitySelector(EntitySelectorConfig(...))] and
    [selector.NumberSelector(NumberSelectorConfig(...))] *)
Inductive selector :=
| EntitySelector (domain : string) (device_class : option string) (multiple : bool)
| NumberSelector (min max step : Q) (unit_of_measurement : string).

(** One line of a [vol.Schema]: [vol.Required(key, default=...)] or
    [vol.Optional(key, default=...)], with its selector. *)
Record field := mkField {
  field_key : string;
  field_required : bool;
  field_default : option value;
  field_selector : selector
}.

Inductive FlowResult :=
(** [self.async_create_entry(title=..., data=...)] *)
| create_entry (title : string) (entry_data : config_dict)
(** [self.async_show_form(step_id=..., data_schema=vol.Schema({...}))] *)
| show_form (step_id : string) (data_schema : list field).

(** A list of entity ids as a value. *)
Definition entity_list (l : list string) : value := VTuple (VStr <$> l).

Definition light_selector : selector := EntitySelector "light" None true.

Definition motion_selector : selector :=
  EntitySelector "binary_sensor" (Some "motion") true.

Definition transition_selector : selector :=
  NumberSelector (0 # 1) (10 # 1) (1 # 10) "seconds".

Definition save_interval_selector : selector :=
  NumberSelector (60 # 1) (3600 # 1) (60 # 1) "seconds".

(** [LightStateManagementConfigFlow.async_step_user] *)
Definition async_step_user (user_input : option config_dict) : FlowResult :=
  match user_input with
  | Some user_input => create_entry "Light State Management" user_input
  | None =>
      show_form "user"
        [ mkField KEY_LIGHTS true None light_selector;
          mkField KEY_MOTION_SENSORS false None motion_selector;
          mkField KEY_TRANSITION false (Some DEFAULT_TRANSITION) transition_selector;
          mkField KEY_SAVE_INTERVAL false (Some (VInt DEFAULT_SAVE_INTERVAL))
                  save_interval_selector ]
  end.

(** [OptionsFlowHandler.async_step_init], for the handler of
    [config_entry] *)
Definition async_step_init (config_entry : ConfigEntry)
    (user_input : option config_dict) : FlowResult :=
  match user_input with
  | Some user_input => create_entry "" user_input
  | None =>
      show_form "init"
        [ mkField KEY_LIGHTS true
            (Some (entity_list
                     (get (options config_entry) CONF_LIGHTS
                        (get (data config_entry) CONF_LIGHTS []))))
            light_selector;
          mkField KEY_MOTION_SENSORS false
            (Some (entity_list
                     (get (options config_entry) CONF_MOTION_SENSORS
                        (get (data config_entry) CONF_MOTION_SENSORS []))))
            motion_selector;
          mkField KEY_TRANSITION false
            (Some (get (options config_entry) CONF_TRANSITION
                     (get (data config_entry) CONF_TRANSITION DEFAULT_TRANSITION)))
            transition_selector;
          mkField KEY_SAVE_INTERVAL false
            (Some (VInt (get (options config_entry) CONF_SAVE_INTERVAL
                           (get (data config_entry) CONF_SAVE_INTERVAL
                              DEFAULT_SAVE_INTERVAL))))
            save_interval_selector ]
  end.

(** The default that a form shows for a key. *)
Definition form_default (r : FlowResult) (key : string) : option value :=
  match r with
  | create_entry _ _ => None
  | show_form _ data_schema =>
      match List.find (λ f, String.eqb (field_key f) key) data_schema with
      | Some f => field_default f
      | None => None
      end
  end.

(** The keys, marks and selectors of a form, without the defaults. *)
Definition form_fields (r : FlowResult) : list (string * bool * selector) :=
  match r with
  | create_entry _ _ => []
  | show_form _ data_schema =>
      (λ f, (field_key f, field_required f, field_selector f)) <$> data_schema
  end.

(** A driver that acknowledges every call. *)
Definition steady_call {World : Type} (w : World) (domain service : string)
    (service_data : gmap string value) : World * bool := (w, true).

(** A string is none of the listed literals. *)
Ltac not_listed H :=
  repeat (apply elem_of_cons in H as [H|H]; [discriminate|]);
  by apply elem_of_nil in H.

(** ** The model on examples *)

Example startswith_light : startswith "light.kitchen" "light." = true.
Proof. reflexivity. Qed.

Example startswith_switch : startswith "switch.x" "light." = false.
Proof. reflexivity. Qed.

Example get_light_state_on :
  _get_light_state (mkState "on" {[ "brightness" := VInt 200; "friendly_name" := VStr "K" ]})
  = {[ "state" := VStr "on"; "brightness" := VInt 200 ]}.
Proof. vm_compute. reflexivity. Qed.

(** Save keeps what the light reports and skips the switch and the unknown
    light. *)
Example save_scenario :
  effects (_handle_save_state Demo.states_get
             ["switch.x"; "light.none"; "light.hall"; "light.kitchen"]
             Demo.home (__init__ Demo.the_entry))
  = [Fire EVENT_STATE_SAVED "light.hall" {[ "state" := VStr "off"; "brightness" := VNone ]};
     Fire EVENT_STATE_SAVED "light.kitchen"
       {[ "state" := VStr "on"; "brightness" := VInt 200 ]}].
Proof. vm_compute. reflexivity. Qed.

(** Restore trusts the snapshot: the hall light was off at save time and is
    left alone, the desk light fails and ends the call. *)
Example restore_scenario :
  let r := _handle_restore_state Demo.async_call
             ["light.hall"; "light.kitchen"; "light.desk"; "light.kitchen"]
             Demo.broken_home Demo.saved in
  map effect_entity (effects r)
  = [Some (VStr "light.kitchen"); Some (VStr "light.kitchen"); Some (VStr "light.desk")]
  ∧ outcome_of r = Raised ServiceCallFailed.
Proof. vm_compute. split; reflexivity. Qed.

(** The setup of an entry with a positive save interval raises after the
    services were registered: no timer, no listener, not set up. *)
Example setup_scenario :
  let s := async_setup_entry Demo.home Demo.the_entry in
  async_setup_entry_outcome Demo.the_entry = Raised (AttributeError "timedelta")
  ∧ _setup_complete (manager s) = false
  ∧ time_interval (registry s) = None
  ∧ state_listener (registry s) = None
  ∧ services (registry s) !! SERVICE_SAVE_STATE = Some save_state_handler.
Proof. vm_compute. repeat split; reflexivity. Qed.

(** With the periodic save switched off setup completes, and two sensors
    turning on one after the other create two restore tasks. *)
Example motion_scenario :
  let on_event sensor := StateChanged (mkEvent sensor (Some (mkState "on" ∅))) in
  (run Demo.states_get Demo.async_call (async_setup_entry Demo.home Demo.motion_entry)
     [on_event "binary_sensor.a"; on_event "binary_sensor.b"]).2
  = [CreateTask ["light.kitchen"; "light.hall"]; CreateTask ["light.kitchen"; "light.hall"]].
Proof. vm_compute. reflexivity. Qed.

(** ** Properties of the save handler *)

Section SaveProperties.

Context {World : Type} (states_get : World → string → option State).

Local Abbreviation save := (_handle_save_state states_get).

Lemma save_cons entity_id rest w self :
  save (entity_id :: rest) w self =
  match saved_snapshot states_get w entity_id with
  | None => save rest w self
  | Some d =>
      emit [Fire EVENT_STATE_SAVED entity_id d]
           (save rest w (set_states (<[entity_id := d]> (_states self)) self))
  end.
Proof.
  unfold saved_snapshot. simpl.
  destruct (startswith entity_id "light."); simpl; [|done].
  by destruct (states_get w entity_id).
Qed.

Lemma save_world ids w self : world (save ids w self) = w.
Proof.
  revert self. induction ids as [|i ids IH]; intros self; [done|].
  rewrite save_cons. destruct (saved_snapshot states_get w i); simpl; auto.
Qed.

Lemma save_outcome ids w self : outcome_of (save ids w self) = Returned.
Proof.
  revert self. induction ids as [|i ids IH]; intros self; [done|].
  rewrite save_cons. destruct (saved_snapshot states_get w i); simpl; auto.
Qed.

Lemma save_effects ids w self :
  effects (save ids w self) = omap (saved_event states_get w) ids.
Proof.
  revert self. induction ids as [|i ids IH]; intros self; [done|].
  rewrite save_cons. unfold saved_event at 1. simpl.
  destruct (saved_snapshot states_get w i); simpl; by rewrite IH.
Qed.

Lemma save_frame ids w self :
  entry (self_after (save ids w self)) = entry self ∧
  _motion_active (self_after (save ids w self)) = _motion_active self ∧
  _cancel_save_interval (self_after (save ids w self)) = _cancel_save_interval self ∧
  _setup_complete (self_after (save ids w self)) = _setup_complete self.
Proof.
  revert self. induction ids as [|i ids IH]; intros self; [done|].
  rewrite save_cons. destruct (saved_snapshot states_get w i); simpl; [|apply IH].
  apply (IH (set_states _ self)).
Qed.

Lemma save_lookup_skipped ids w self entity_id :
  saved_snapshot states_get w entity_id = None →
  _states (self_after (save ids w self)) !! entity_id = _states self !! entity_id.
Proof.
  intros Hskip. revert self. induction ids as [|i ids IH]; intros self; [done|].
  rewrite save_cons. destruct (saved_snapshot states_get w i) as [d|] eqn:Hi; simpl; [|apply IH].
  rewrite IH. simpl. apply lookup_insert_ne. congruence.
Qed.

Lemma save_lookup_not_listed ids w self entity_id :
  entity_id ∉ ids →
  _states (self_after (save ids w self)) !! entity_id = _states self !! entity_id.
Proof.
  revert self. induction ids as [|i ids IH]; intros self Hnot; [done|].
  apply not_elem_of_cons in Hnot as [Hne Hnot].
  rewrite save_cons. destruct (saved_snapshot states_get w i) as [d|]; simpl; [|by apply IH].
  rewrite IH by done. simpl. by apply lookup_insert_ne.
Qed.

Lemma save_lookup_saved ids w self entity_id d :
  entity_id ∈ ids → saved_snapshot states_get w entity_id = Some d →
  _states (self_after (save ids w self)) !! entity_id = Some d.
Proof.
  intros Hin Hd. revert self. induction ids as [|i ids IH]; intros self.
  { by apply elem_of_nil in Hin. }
  rewrite save_cons. destruct (decide (entity_id ∈ ids)) as [Hrest|Hrest].
  - destruct (saved_snapshot states_get w i); simpl; by apply IH.
  - apply elem_of_cons in Hin as [->|Hin]; [|done].
    rewrite Hd. simpl. rewrite save_lookup_not_listed by done.
    simpl. apply lookup_insert_eq.
Qed.

Lemma save_app l1 l2 w self :
  save (l1 ++ l2) w self =
  emit (effects (save l1 w self)) (save l2 w (self_after (save l1 w self))).
Proof.
  revert self. induction l1 as [|i l1 IH]; intros self.
  { simpl. by destruct (save l2 w self). }
  rewrite <- app_comm_cons, !save_cons.
  destruct (saved_snapshot states_get w i); simpl; [|apply IH].
  rewrite IH. unfold emit. simpl. done.
Qed.

End SaveProperties.

(** ** Snapshots and service data *)

Lemma fold_attrs_lookup (attrs : gmap string value) (l : list string)
    (d : gmap string value) (k : string) :
  foldl (λ data attr, match attrs !! attr with
                      | Some v => <[attr := v]> data
                      | None => data
                      end) d l !! k
  = match (if bool_decide (k ∈ l) then attrs !! k else None) with
    | Some v => Some v
    | None => d !! k
    end.
Proof.
  revert d. induction l as [|a l IH]; intros d; cbn [foldl].
  { by rewrite bool_decide_eq_false_2 by apply not_elem_of_nil. }
  rewrite IH. destruct (decide (k ∈ l)) as [Hin|Hnot].
  - rewrite !bool_decide_eq_true_2 by (try right; done).
    destruct (attrs !! k) eqn:Hk; [done|].
    destruct (attrs !! a) eqn:Ha; [|done].
    apply lookup_insert_ne. intros ->. congruence.
  - rewrite (bool_decide_eq_false_2 (k ∈ l)) by done.
    destruct (decide (k = a)) as [->|Hne].
    + rewrite bool_decide_eq_true_2 by left.
      destruct (attrs !! a); [apply lookup_insert_eq|done].
    + rewrite bool_decide_eq_false_2 by (rewrite elem_of_cons; tauto).
      destruct (attrs !! a); [by apply lookup_insert_ne|done].
Qed.

Lemma relevant_not_state : "state" ∉ RELEVANT_ATTRS.
Proof. intros H. not_listed H. Qed.

Lemma relevant_not_entity_id : "entity_id" ∉ RELEVANT_ATTRS.
Proof. intros H. not_listed H. Qed.

Lemma relevant_not_transition : "transition" ∉ RELEVANT_ATTRS.
Proof. intros H. not_listed H. Qed.

Lemma get_light_state_state st : _get_light_state st !! "state" = Some (VStr (state st)).
Proof.
  unfold _get_light_state. rewrite fold_attrs_lookup.
  rewrite bool_decide_eq_false_2 by apply relevant_not_state.
  apply lookup_singleton_eq.
Qed.

Lemma get_light_state_attr st a :
  a ∈ RELEVANT_ATTRS → _get_light_state st !! a = attributes st !! a.
Proof.
  intros Ha. unfold _get_light_state. rewrite fold_attrs_lookup.
  rewrite bool_decide_eq_true_2 by done.
  destruct (attributes st !! a); [done|].
  apply lookup_singleton_ne. intros <-. by apply relevant_not_state.
Qed.

Lemma get_light_state_other st k :
  k ≠ "state" → k ∉ RELEVANT_ATTRS → _get_light_state st !! k = None.
Proof.
  intros Hk Ha. unfold _get_light_state. rewrite fold_attrs_lookup.
  rewrite bool_decide_eq_false_2 by done. by apply lookup_singleton_ne.
Qed.

Lemma service_data_lookup entity_id transition (state_data : gmap string value) k :
  service_data_of entity_id transition state_data !! k
  = match (if bool_decide (k = "state") then None else state_data !! k) with
    | Some v => Some v
    | None => ({[ "entity_id" := VStr entity_id; "transition" := transition ]}
                : gmap string value) !! k
    end.
Proof.
  unfold service_data_of. rewrite lookup_union, map_lookup_filter. simpl.
  case_bool_decide as Hk.
  - subst k. destruct (state_data !! "state"); simpl; by rewrite (left_id None _).
  - destruct (state_data !! k); simpl.
    + rewrite option_guard_True by done. simpl.
      match goal with |- Some v ∪ ?o = _ => by destruct o end.
    + by rewrite (left_id None _).
Qed.

Lemma not_state_on_false v : not_state_on v = false ↔ v = VStr STATE_ON.
Proof.
  destruct v; simpl; try (split; [done|discriminate]).
  rewrite negb_false_iff, String.eqb_eq. split; [by intros ->|by intros [= ->]].
Qed.

Lemma captured_entity_id (state_data : gmap string value) :
  (∃ st, state_data = _get_light_state st) → state_data !! "entity_id" = None.
Proof.
  intros [st ->]. apply get_light_state_other; [done|].
  apply relevant_not_entity_id.
Qed.

Lemma service_data_entity_id entity_id transition (state_data : gmap string value) :
  state_data !! "entity_id" = None →
  service_data_of entity_id transition state_data !! "entity_id" = Some (VStr entity_id).
Proof.
  intros H. rewrite service_data_lookup, H.
  rewrite bool_decide_eq_false_2 by done. done.
Qed.

(** ** Properties of the restore handler *)

Section RestoreProperties.

Context {World : Type}
        (async_call : World → string → string → gmap string value → World * bool).

Local Abbreviation loop := (restore_loop async_call).

Lemma restore_skip_absent t entity_id rest w self :
  _states self !! entity_id = None →
  loop t (entity_id :: rest) w self = loop t rest w self.
Proof. intros H. simpl. by rewrite H. Qed.

Lemma restore_skip_not_on t entity_id rest w self state_data s :
  _states self !! entity_id = Some state_data →
  state_data !! "state" = Some s → s ≠ VStr STATE_ON →
  loop t (entity_id :: rest) w self = loop t rest w self.
Proof.
  intros H Hs Hne. simpl. rewrite H, Hs.
  destruct (not_state_on s) eqn:Hon; [done|].
  by apply not_state_on_false in Hon.
Qed.

Lemma restore_turn_on t entity_id rest w self state_data :
  _states self !! entity_id = Some state_data →
  state_data !! "state" = Some (VStr STATE_ON) →
  loop t (entity_id :: rest) w self =
  let service_data := service_data_of entity_id t state_data in
  let r := async_call w "light" SERVICE_TURN_ON service_data in
  if r.2 then
    emit [Call "light" SERVICE_TURN_ON service_data;
          Fire EVENT_STATE_RESTORED entity_id state_data]
         (loop t rest r.1 self)
  else mkResult r.1 self [Call "light" SERVICE_TURN_ON service_data]
                (Raised ServiceCallFailed).
Proof.
  intros H Hs. simpl. rewrite H, Hs. simpl.
  by destruct (async_call w "light" SERVICE_TURN_ON _) as [w' []].
Qed.

Lemma restore_self t ids w self : self_after (loop t ids w self) = self.
Proof.
  revert w. induction ids as [|i ids IH]; intros w; [done|]. simpl.
  destruct (_states self !! i) as [d|]; [|apply IH].
  destruct (d !! "state") as [s|]; [|done].
  destruct (not_state_on s); [apply IH|].
  destruct (async_call w _ _ _) as [w' []]; simpl; [apply IH|done].
Qed.

Lemma restore_effects t ids w self e :
  e ∈ effects (loop t ids w self) →
  ∃ entity_id, entity_id ∈ ids ∧ restore_effect self t entity_id e.
Proof.
  revert w. induction ids as [|i ids IH]; intros w; simpl.
  { intros H. by apply elem_of_nil in H. }
  assert (∀ w, e ∈ effects (loop t ids w self) →
            ∃ entity_id, entity_id ∈ i :: ids ∧ restore_effect self t entity_id e) as IH'.
  { intros w0 H. destruct (IH w0 H) as (x & ? & ?). exists x. split; [by right|done]. }
  destruct (_states self !! i) as [d|] eqn:Hi; [|apply IH'].
  destruct (d !! "state") as [s|] eqn:Hs; simpl.
  2:{ intros H. by apply elem_of_nil in H. }
  destruct (not_state_on s) eqn:Hon; [apply IH'|].
  apply not_state_on_false in Hon. subst s.
  destruct (async_call w _ _ _) as [w' []]; simpl; intros H.
  - apply elem_of_cons in H as [->|H].
    { exists i. split; [left|]. by apply restore_effect_call. }
    apply elem_of_cons in H as [->|H]; [|by eapply IH'].
    exists i. split; [left|]. by apply restore_effect_fire.
  - apply list_elem_of_singleton in H as ->.
    exists i. split; [left|]. by apply restore_effect_call.
Qed.

Lemma restore_app_returned t l1 l2 w self :
  outcome_of (loop t l1 w self) = Returned →
  loop t (l1 ++ l2) w self =
  emit (effects (loop t l1 w self)) (loop t l2 (world (loop t l1 w self)) self).
Proof.
  revert w. induction l1 as [|i l1 IH]; intros w; simpl.
  { intros _. by destruct (loop t l2 w self). }
  destruct (_states self !! i) as [d|]; [|apply IH].
  destruct (d !! "state") as [s|]; [|done].
  destruct (not_state_on s); [apply IH|].
  destruct (async_call w _ _ _) as [w' []]; simpl; [|done].
  intros H. rewrite IH by done. done.
Qed.

End RestoreProperties.

(** ** Properties of the clear handler *)

Section ClearProperties.

Context {World : Type}.

Local Abbreviation clear := (@_handle_clear_states World).

Lemma clear_lookup ids (w : World) self k :
  _states (self_after (clear ids w self)) !! k
  = if bool_decide (k ∈ ids) then None else _states self !! k.
Proof.
  revert self. induction ids as [|i ids IH]; intros self; [done|].
  cbn [_handle_clear_states]. rewrite IH. cbn [set_states _states].
  destruct (decide (k ∈ ids)) as [Hin|Hnot].
  { by rewrite !bool_decide_eq_true_2 by (try right; done). }
  rewrite (bool_decide_eq_false_2 (k ∈ ids)) by done.
  destruct (decide (k = i)) as [->|Hne].
  - rewrite bool_decide_eq_true_2 by left. apply lookup_delete_eq.
  - rewrite bool_decide_eq_false_2 by (rewrite elem_of_cons; tauto).
    by apply lookup_delete_ne.
Qed.

Lemma clear_frame ids (w : World) self :
  world (clear ids w self) = w ∧
  effects (clear ids w self) = [] ∧
  outcome_of (clear ids w self) = Returned ∧
  entry (self_after (clear ids w self)) = entry self ∧
  _motion_active (self_after (clear ids w self)) = _motion_active self ∧
  _cancel_save_interval (self_after (clear ids w self)) = _cancel_save_interval self ∧
  _setup_complete (self_after (clear ids w self)) = _setup_complete self.
Proof.
  revert self. induction ids as [|i ids IH]; intros self; [done|].
  cbn [_handle_clear_states]. apply (IH (set_states _ self)).
Qed.

End ClearProperties.

(** ** Properties of the motion handlers *)

Lemma any_values_spec (m : gmap string bool) : any_values m = true ↔ some_active m.
Proof.
  unfold any_values, some_active. rewrite bool_decide_eq_true, map_Exists_lookup.
  split; intros (k & H); [destruct H as (b & ? & ->)|]; eauto.
Qed.

Section MotionProperties.

Context {World : Type}.

Lemma motion_ignored motion_sensors event (w : World) self :
  ev_entity_id event ∉ motion_sensors ∨ ev_new_state event = None →
  handle_motion motion_sensors event w self = mkResult w self [] Returned.
Proof.
  intros H. unfold handle_motion, not_in.
  destruct (decide (ev_entity_id event ∈ motion_sensors)) as [Hin|Hnot].
  - rewrite bool_decide_eq_true_2 by done. simpl.
    destruct H as [H|H]; [done|]. by rewrite H.
  - by rewrite bool_decide_eq_false_2 by done.
Qed.

Lemma motion_tracked motion_sensors event new_state (w : World) self :
  ev_entity_id event ∈ motion_sensors → ev_new_state event = Some new_state →
  handle_motion motion_sensors event w self =
  _handle_motion_change w
    (set_motion_active
       (<[ev_entity_id event := String.eqb (state new_state) STATE_ON]>
          (_motion_active self)) self).
Proof.
  intros Hin Hnew. unfold handle_motion, not_in.
  rewrite bool_decide_eq_true_2 by done. simpl. by rewrite Hnew.
Qed.

Lemma motion_change_frame (w : World) self :
  world (_handle_motion_change w self) = w ∧
  self_after (_handle_motion_change w self) = self ∧
  outcome_of (_handle_motion_change w self) = Returned.
Proof.
  unfold _handle_motion_change.
  destruct (_setup_complete self); simpl; [|done].
  by destruct (any_values _).
Qed.

Lemma motion_frame motion_sensors event (w : World) self :
  world (handle_motion motion_sensors event w self) = w ∧
  outcome_of (handle_motion motion_sensors event w self) = Returned ∧
  entry (self_after (handle_motion motion_sensors event w self)) = entry self ∧
  _states (self_after (handle_motion motion_sensors event w self)) = _states self ∧
  _cancel_save_interval (self_after (handle_motion motion_sensors event w self))
    = _cancel_save_interval self ∧
  _setup_complete (self_after (handle_motion motion_sensors event w self))
    = _setup_complete self.
Proof.
  unfold handle_motion. destruct (not_in _ _); [done|].
  destruct (ev_new_state event) as [ns|]; [|done].
  destruct (motion_change_frame w (set_motion_active
    (<[ev_entity_id event := String.eqb (state ns) STATE_ON]> (_motion_active self)) self))
    as (-> & -> & ->).
  done.
Qed.


End MotionProperties.

(** ** The system: what setup establishes and every stimulus preserves *)

Section SystemProperties.

Context {World : Type}
        (states_get : World → string → option State)
        (async_call : World → string → string → gmap string value → World * bool).

Local Abbreviation save := (_handle_save_state states_get).
Local Abbreviation restore := (_handle_restore_state async_call).
Local Abbreviation tick := (_handle_interval_save states_get).
Local Abbreviation handle := (run_handler states_get async_call).
Local Abbreviation deliver' := (deliver states_get async_call).
Local Abbreviation run' := (run states_get async_call).

Lemma stable_refl self : stable self self.
Proof. done. Qed.

Lemma handler_stable h ids (w : World) self :
  stable self (self_after (handle h ids w self)).
Proof.
  destruct h; simpl.
  - destruct (save_frame states_get ids w self) as (? & ? & ? & ?). done.
  - unfold _handle_restore_state. by rewrite restore_self.
  - destruct (clear_frame ids w self) as (? & ? & ? & ? & ? & ? & ?). done.
Qed.

Lemma tick_stable (w : World) self : stable self (self_after (tick w self)).
Proof.
  unfold _handle_interval_save. destruct (_setup_complete self); simpl; [|done].
  apply (handler_stable save_state_handler).
Qed.

Lemma motion_stable motion_sensors event (w : World) self :
  stable self (self_after (handle_motion motion_sensors event w self)).
Proof.
  destruct (motion_frame motion_sensors event w self) as (? & ? & ? & ? & ? & ?).
  done.
Qed.

Lemma deliver_stable s x : stable (manager s) (manager (deliver' s x).1).
Proof.
  destruct x; simpl.
  - destruct (services (registry s) !! service); [apply handler_stable|done].
  - destruct (time_interval (registry s)); [apply tick_stable|done].
  - destruct (state_listener (registry s)); [apply motion_stable|done].
  - destruct (tasks (registry s)); [done|].
    apply (handler_stable restore_state_handler).
  - done.
  - done.
Qed.

Lemma deliver_listener s x :
  state_listener (registry (deliver' s x).1) = state_listener (registry s).
Proof.
  destruct x; simpl; try done.
  - by destruct (services (registry s) !! service).
  - by destruct (time_interval (registry s)).
  - destruct (state_listener (registry s)) eqn:H; simpl; by rewrite ?H.
  - by destruct (tasks (registry s)).
  - by destruct (_cancel_save_interval (manager s)).
Qed.

Lemma deliver_timer s x :
  x ≠ Unload → time_interval (registry (deliver' s x).1) = time_interval (registry s).
Proof.
  intros Hx. destruct x; simpl; try done.
  - by destruct (services (registry s) !! service).
  - destruct (time_interval (registry s)) eqn:H; simpl; by rewrite ?H.
  - by destruct (state_listener (registry s)).
  - by destruct (tasks (registry s)).
Qed.

Lemma deliver_timer_none s x :
  time_interval (registry s) = None → time_interval (registry (deliver' s x).1) = None.
Proof.
  intros H. destruct x; try (by rewrite deliver_timer).
  simpl. by destruct (_cancel_save_interval (manager s)).
Qed.

Lemma after_nothing (s : System World) :
  after s (mkResult (hass s) (manager s) [] Returned) = (s, []).
Proof.
  unfold after. cbn. rewrite app_nil_r. by destruct s as [? ? []].
Qed.

(** *** The store invariants *)

Lemma save_light_keys ids (w : World) self :
  light_keys (_states self) → light_keys (_states (self_after (save ids w self))).
Proof.
  revert self. induction ids as [|i ids IH]; intros self H; [done|].
  rewrite save_cons. unfold saved_snapshot.
  destruct (startswith i "light.") eqn:Hi; [|by apply IH].
  destruct (states_get w i); simpl; [|by apply IH].
  apply IH. simpl. by apply map_Forall_insert_2.
Qed.

Lemma save_captured ids (w : World) self :
  captured (_states self) → captured (_states (self_after (save ids w self))).
Proof.
  revert self. induction ids as [|i ids IH]; intros self H; [done|].
  rewrite save_cons. unfold saved_snapshot.
  destruct (startswith i "light."); [|by apply IH].
  destruct (states_get w i) as [st|]; simpl; [|by apply IH].
  apply IH. simpl. apply map_Forall_insert_2; [by exists st|done].
Qed.

Lemma clear_forall (P : string → gmap string value → Prop) ids (w : World) self :
  map_Forall P (_states self) →
  map_Forall P (_states (self_after (_handle_clear_states ids w self))).
Proof.
  revert self. induction ids as [|i ids IH]; intros self H; [done|].
  cbn [_handle_clear_states]. apply IH. simpl. by apply map_Forall_delete.
Qed.

Lemma handler_forall (P : string → gmap string value → Prop) h ids (w : World) self :
  (∀ ids w self, map_Forall P (_states self) →
                 map_Forall P (_states (self_after (save ids w self)))) →
  map_Forall P (_states self) →
  map_Forall P (_states (self_after (handle h ids w self))).
Proof.
  intros Hsave H. destruct h; simpl.
  - by apply Hsave.
  - unfold _handle_restore_state. by rewrite restore_self.
  - by apply clear_forall.
Qed.

Lemma deliver_forall (P : string → gmap string value → Prop) s x :
  (∀ ids w self, map_Forall P (_states self) →
                 map_Forall P (_states (self_after (save ids w self)))) →
  map_Forall P (_states (manager s)) →
  map_Forall P (_states (manager (deliver' s x).1)).
Proof.
  intros Hsave H. destruct x; simpl; try done.
  - destruct (services (registry s) !! service); [by apply handler_forall|done].
  - destruct (time_interval (registry s)); [|done]. simpl.
    unfold _handle_interval_save. destruct (_setup_complete _); simpl; [|done].
    by apply Hsave.
  - destruct (state_listener (registry s)) as [l|]; [|done]. simpl.
    destruct (motion_frame l event (hass s) (manager s)) as (_ & _ & _ & -> & _).
    done.
  - destruct (tasks (registry s)); [done|]. simpl.
    unfold _handle_restore_state. by rewrite restore_self.
Qed.

(** *** Runs *)

Lemma run_cons s x xs :
  run' s (x :: xs) =
  ((run' (deliver' s x).1 xs).1, ((deliver' s x).2 ++ (run' (deliver' s x).1 xs).2)%list).
Proof.
  cbn [run]. destruct (deliver' s x) as [s1 es1]. cbn [fst snd].
  by destruct (run' s1 xs) as [s2 es2].
Qed.

Lemma run_invariant (P : System World → Prop) xs :
  (∀ s x, x ∈ xs → P s → P (deliver' s x).1) →
  ∀ s, P s → P (run' s xs).1.
Proof.
  induction xs as [|x xs IH]; intros Hstep s Hs; [done|].
  rewrite run_cons. cbn [fst]. apply IH.
  - intros s' x' Hin. apply Hstep. by right.
  - apply Hstep; [left|done].
Qed.

(** *** What [async_setup_entry] establishes *)

Lemma setup_manager (w : World) e : manager (async_setup_entry w e) = set_up e.
Proof.
  unfold async_setup_entry, async_setup, set_up. simpl.
  by destruct (0 <? _)%Z.
Qed.

Lemma setup_hass (w : World) e : hass (async_setup_entry w e) = w.
Proof.
  unfold async_setup_entry, async_setup. simpl.
  by destruct (0 <? _)%Z.
Qed.

Lemma setup_outcome e :
  async_setup_entry_outcome e
  = if (0 <? get (data e) CONF_SAVE_INTERVAL DEFAULT_SAVE_INTERVAL)%Z
    then Raised (AttributeError "timedelta") else Returned.
Proof.
  unfold async_setup_entry_outcome, async_setup. simpl.
  by destruct (0 <? _)%Z.
Qed.

Lemma setup_timer (w : World) e :
  time_interval (registry (async_setup_entry w e)) = None.
Proof.
  unfold async_setup_entry, async_setup. simpl.
  destruct (0 <? _)%Z; simpl; [done|].
  by destruct (CONF_MOTION_SENSORS (data e)) as [[|? ?]|].
Qed.

Lemma setup_listener (w : World) e :
  state_listener (registry (async_setup_entry w e)) = registered_listener (data e).
Proof.
  unfold async_setup_entry, async_setup, registered_listener, listener_of. simpl.
  destruct (0 <? _)%Z; simpl; [done|].
  by destruct (CONF_MOTION_SENSORS (data e)) as [[|? ?]|].
Qed.

(** A registered listener has the configured sensors, and its manager is
    set up. *)
Lemma registered_listener_ready e motion_sensors :
  registered_listener (data e) = Some motion_sensors →
  motion_sensors = get (data e) CONF_MOTION_SENSORS []
  ∧ _setup_complete (set_up e) = true.
Proof.
  unfold registered_listener, listener_of, set_up, get. cbn [_setup_complete].
  destruct (0 <? _)%Z; [done|].
  destruct (CONF_MOTION_SENSORS (data e)) as [[|? ?]|]; [done| |done].
  by intros [= <-].
Qed.

(** Every state a run reaches from [async_setup_entry]. *)
Lemma run_keeps_setup (w : World) e xs :
  let s := (run' (async_setup_entry w e) xs).1 in
  entry (manager s) = e
  ∧ _setup_complete (manager s) = _setup_complete (set_up e)
  ∧ state_listener (registry s) = registered_listener (data e)
  ∧ time_interval (registry s) = None.
Proof.
  apply (run_invariant (λ s, entry (manager s) = e
                             ∧ _setup_complete (manager s) = _setup_complete (set_up e)
                             ∧ state_listener (registry s) = registered_listener (data e)
                             ∧ time_interval (registry s) = None)).
  - intros s x _ (He & Hc & Hl & Ht).
    destruct (deliver_stable s x) as (-> & _ & ->).
    rewrite deliver_listener. by rewrite deliver_timer_none.
  - rewrite setup_manager, setup_listener, setup_timer. done.
Qed.

Lemma run_light_keys (w : World) e xs :
  light_keys (_states (manager (run' (async_setup_entry w e) xs).1)).
Proof.
  apply (run_invariant (λ s, light_keys (_states (manager s)))).
  - intros s x _ H. apply deliver_forall; [|done].
    intros. by apply save_light_keys.
  - rewrite setup_manager. apply map_Forall_empty.
Qed.

Lemma run_captured (w : World) e xs :
  captured (_states (manager (run' (async_setup_entry w e) xs).1)).
Proof.
  apply (run_invariant (λ s, captured (_states (manager s)))).
  - intros s x _ H. apply deliver_forall; [|done].
    intros. by apply save_captured.
  - rewrite setup_manager. apply map_Forall_empty.
Qed.

End SystemProperties.

(** ** The handlers read the entry's [data] only *)

Section EntryProperties.

Context {World : Type}
        (states_get : World → string → option State)
        (async_call : World → string → string → gmap string value → World * bool).

Local Abbreviation save := (_handle_save_state states_get).
Local Abbreviation restore := (_handle_restore_state async_call).
Local Abbreviation tick := (_handle_interval_save states_get).
Local Abbreviation deliver' := (deliver states_get async_call).
Local Abbreviation run' := (run states_get async_call).

Lemma save_with_entry e ids (w : World) self :
  save ids w (with_entry e self) = on_self (with_entry e) (save ids w self).
Proof.
  revert self. induction ids as [|i ids IH]; intros self; [done|].
  rewrite !save_cons. destruct (saved_snapshot states_get w i); [|apply IH].
  cbn [with_entry _states].
  change (set_states ?s (with_entry e self)) with (with_entry e (set_states s self)).
  by rewrite IH.
Qed.

Lemma loop_with_entry e t ids (w : World) self :
  restore_loop async_call t ids w (with_entry e self)
  = on_self (with_entry e) (restore_loop async_call t ids w self).
Proof.
  revert w. induction ids as [|i ids IH]; intros w; [done|].
  cbn [restore_loop with_entry _states].
  destruct (_states self !! i) as [d|]; [|apply IH].
  destruct (d !! "state") as [s|]; [|done].
  destruct (not_state_on s); [apply IH|].
  destruct (async_call w _ _ _) as [w' []]; [|done].
  by rewrite IH.
Qed.

Lemma restore_with_entry e ids (w : World) self :
  data e = data (entry self) →
  restore ids w (with_entry e self) = on_self (with_entry e) (restore ids w self).
Proof.
  intros He. unfold _handle_restore_state. cbn [with_entry entry].
  rewrite He. apply loop_with_entry.
Qed.

Lemma clear_with_entry e ids (w : World) self :
  _handle_clear_states ids w (with_entry e self)
  = on_self (with_entry e) (_handle_clear_states ids w self).
Proof.
  revert self. induction ids as [|i ids IH]; intros self; [done|].
  cbn [_handle_clear_states with_entry _states].
  change (set_states ?s (with_entry e self)) with (with_entry e (set_states s self)).
  apply IH.
Qed.

Lemma tick_with_entry e (w : World) self :
  data e = data (entry self) →
  tick w (with_entry e self) = on_self (with_entry e) (tick w self).
Proof.
  intros He. unfold _handle_interval_save. cbn [with_entry entry _setup_complete].
  destruct (_setup_complete self); simpl; [|done].
  rewrite He. apply save_with_entry.
Qed.

Lemma motion_with_entry e motion_sensors event (w : World) self :
  data e = data (entry self) →
  handle_motion motion_sensors event w (with_entry e self)
  = on_self (with_entry e) (handle_motion motion_sensors event w self).
Proof.
  intros He. unfold handle_motion. destruct (not_in _ _); [done|].
  destruct (ev_new_state event) as [ns|]; [|done].
  unfold _handle_motion_change. simpl. destruct (_setup_complete self); simpl; [|done].
  destruct (any_values _); [|done]. by rewrite He.
Qed.

Lemma setup_with_entry (w : World) e1 e2 :
  data e1 = data e2 →
  async_setup_entry w e2 = system_with_entry e2 (async_setup_entry w e1).
Proof.
  intros He. unfold async_setup_entry, async_setup. simpl. rewrite He.
  by destruct (0 <? _)%Z.
Qed.

Lemma deliver_with_entry e s x :
  data e = data (entry (manager s)) →
  deliver' (system_with_entry e s) x
  = (system_with_entry e (deliver' s x).1, (deliver' s x).2).
Proof.
  intros He. destruct x; cbn [deliver system_with_entry registry manager hass].
  - destruct (services (registry s) !! service) as [[]|]; [| | |done]; cbn [run_handler].
    + by rewrite save_with_entry.
    + by rewrite restore_with_entry.
    + by rewrite clear_with_entry.
  - destruct (time_interval (registry s)); [|done]. by rewrite tick_with_entry.
  - destruct (state_listener (registry s)); [|done]. by rewrite motion_with_entry.
  - destruct (tasks (registry s)); [done|]. by rewrite restore_with_entry.
  - done.
  - done.
Qed.

Lemma run_with_entry e s xs :
  data e = data (entry (manager s)) →
  run' (system_with_entry e s) xs = (system_with_entry e (run' s xs).1, (run' s xs).2).
Proof.
  revert s. induction xs as [|x xs IH]; intros s He; [done|].
  rewrite !run_cons, deliver_with_entry by done. cbn [fst snd].
  rewrite IH; [done|].
  destruct (deliver_stable states_get async_call s x) as (-> & _). done.
Qed.

End EntryProperties.

(** ** The claims *)

Section Claims.

Context {World : Type}
        (states_get : World → string → option State)
        (async_call : World → string → string → gmap string value → World * bool).

Local Abbreviation save := (_handle_save_state states_get).
Local Abbreviation restore := (_handle_restore_state async_call).
Local Abbreviation clear := (@_handle_clear_states World).
Local Abbreviation tick := (_handle_interval_save states_get).
Local Abbreviation deliver' := (deliver states_get async_call).
Local Abbreviation run' := (run states_get async_call).

(** C1. A light that is in the light domain, known to the host and
    reported on when a save over [ids] runs gets its snapshot stored; a
    later restore of it, in whatever state the host then is, issues one
    turn-on command whose service data names the light, carries the
    configured transition, carries each of brightness, color_temp,
    hs_color, rgb_color, xy_color and effect exactly when the light had
    it at save time (with that value), and carries no other key.  The
    restored notification follows when the command is acknowledged. *)
Theorem save_then_restore_reproduces
    (ids : list string) (entity_id : string) (st : State) (w w2 : World)
    (self : LightStateManager) :
  entity_id ∈ ids →
  startswith entity_id "light." = true →
  states_get w entity_id = Some st →
  state st = STATE_ON →
  let saved := self_after (save ids w self) in
  let transition := get (data (entry self)) CONF_TRANSITION DEFAULT_TRANSITION in
  let payload := service_data_of entity_id transition (_get_light_state st) in
  _states saved !! entity_id = Some (_get_light_state st)
  ∧ effects (restore [entity_id] w2 saved)
    = Call "light" SERVICE_TURN_ON payload
      :: (if (async_call w2 "light" SERVICE_TURN_ON payload).2
          then [Fire EVENT_STATE_RESTORED entity_id (_get_light_state st)]
          else [])
  ∧ payload !! "entity_id" = Some (VStr entity_id)
  ∧ payload !! "transition" = Some transition
  ∧ (∀ attr, attr ∈ RELEVANT_ATTRS → payload !! attr = attributes st !! attr)
  ∧ (∀ key, key ∉ RELEVANT_ATTRS → key ≠ "entity_id" → key ≠ "transition" →
       payload !! key = None).
Proof.
  intros Hin Hlight Hst Hon saved transition payload.
  assert (_states saved !! entity_id = Some (_get_light_state st)) as Hsaved.
  { apply save_lookup_saved; [done|]. unfold saved_snapshot. by rewrite Hlight, Hst. }
  split; [done|]. split.
  { unfold _handle_restore_state.
    destruct (save_frame states_get ids w self) as (He & _). fold saved in He.
    rewrite He. fold transition.
    rewrite (restore_turn_on async_call transition entity_id [] w2 saved
               (_get_light_state st) Hsaved).
    2:{ rewrite get_light_state_state. by rewrite Hon. }
    cbn zeta. fold payload.
    by destruct (async_call w2 "light" SERVICE_TURN_ON payload) as [w' []]. }
  split.
  { apply service_data_entity_id, captured_entity_id. by exists st. }
  split.
  { unfold payload. rewrite service_data_lookup.
    rewrite bool_decide_eq_false_2 by done.
    rewrite get_light_state_other; [done|done|apply relevant_not_transition]. }
  split.
  - intros attr Hattr. unfold payload. rewrite service_data_lookup.
    assert (attr ≠ "state") as Hne.
    { intros ->. by apply relevant_not_state. }
    rewrite bool_decide_eq_false_2 by done.
    rewrite get_light_state_attr by done.
    destruct (attributes st !! attr) eqn:Hv; [done|].
    rewrite lookup_insert_ne.
    2:{ intros <-. by apply relevant_not_entity_id. }
    apply lookup_singleton_ne. intros <-. by apply relevant_not_transition.
  - intros key Hkey Hid Htr. unfold payload. rewrite service_data_lookup.
    case_bool_decide as Hs.
    + rewrite lookup_insert_ne by done. by apply lookup_singleton_ne.
    + rewrite get_light_state_other by done.
      rewrite lookup_insert_ne by done. by apply lookup_singleton_ne.
Qed.

(** C2. Over a store of captured snapshots, restore issues turn-on
    commands to the light domain and restored notifications and nothing
    else, so never a turn-off; and no command and no notification is
    about an identifier that has no stored snapshot or whose stored
    snapshot's state is not on. *)
Theorem restore_only_stored_on (ids : list string) (w : World)
    (self : LightStateManager) :
  captured (_states self) →
  let r := restore ids w self in
  (∀ e, e ∈ effects r →
     (∃ service_data, e = Call "light" SERVICE_TURN_ON service_data)
     ∨ (∃ entity_id state_data, e = Fire EVENT_STATE_RESTORED entity_id state_data))
  ∧ (∀ domain service_data, Call domain SERVICE_TURN_OFF service_data ∉ effects r)
  ∧ (∀ entity_id,
       _states self !! entity_id = None
       ∨ (∃ state_data, _states self !! entity_id = Some state_data
                        ∧ state_data !! "state" ≠ Some (VStr STATE_ON)) →
       ∀ e, e ∈ effects r → effect_entity e ≠ Some (VStr entity_id)).
Proof.
  intros Hcap r. unfold r, _handle_restore_state.
  set (t := get _ _ _). repeat split.
  - intros e He. apply restore_effects in He as (i & _ & Hi).
    destruct Hi; [left|right]; eauto.
  - intros domain service_data He.
    apply restore_effects in He as (i & _ & Hi). inversion Hi.
  - intros entity_id Hskip e He Hent.
    apply restore_effects in He as (i & _ & Hi).
    assert (i = entity_id ∧ stored_on self i) as [-> (d & Hd & Hon)].
    { destruct Hi as [d Hd Hon|d Hd Hon]; simpl in Hent.
      - rewrite service_data_entity_id in Hent.
        + injection Hent as ->. split; [done|by exists d].
        + apply captured_entity_id. by apply (Hcap i d).
      - injection Hent as ->. split; [done|by exists d]. }
    destruct Hskip as [Hnone|(d' & Hd' & Hoff)]; [congruence|].
    rewrite Hd in Hd'. injection Hd' as ->. done.
Qed.


(** C4. When the turn-on command of an identifier fails, after the ones
    before it went through, the restore call ends in that failure; its
    trace is the trace of the identifiers before it followed by the
    failed command alone, whatever identifiers come after; and the
    manager is as it was.  Restore never changes the manager, however it
    ends. *)
Theorem restore_failure_aborts (pre post : list string) (entity_id : string)
    (state_data : gmap string value) (w : World) (self : LightStateManager) :
  let transition := get (data (entry self)) CONF_TRANSITION DEFAULT_TRANSITION in
  let command := service_data_of entity_id transition state_data in
  outcome_of (restore pre w self) = Returned →
  _states self !! entity_id = Some state_data →
  state_data !! "state" = Some (VStr STATE_ON) →
  (async_call (world (restore pre w self)) "light" SERVICE_TURN_ON command).2 = false →
  let r := restore (pre ++ entity_id :: post) w self in
  outcome_of r = Raised ServiceCallFailed
  ∧ effects r = (effects (restore pre w self) ++ [Call "light" SERVICE_TURN_ON command])%list
  ∧ self_after r = self
  ∧ (∀ ids w', self_after (restore ids w' self) = self).
Proof.
  intros transition command Hpre Hd Hon Hfail r.
  assert (∀ ids w', self_after (restore ids w' self) = self) as Hself.
  { intros. apply restore_self. }
  unfold r, _handle_restore_state in *. fold transition in Hpre, Hfail |- *.
  rewrite restore_app_returned by done.
  rewrite (restore_turn_on async_call transition entity_id post _ self state_data Hd Hon).
  cbn zeta. fold command. rewrite Hfail. done.
Qed.


(** C5, the code against the claim.  For an entry whose save interval is
    0 or less the claim holds in every state that a run reaches from
    [async_setup_entry]: a notification whose identifier is not among the
    configured motion sensors, or that has no new state, changes nothing
    and schedules nothing; any other sets the identifier's entry in the
    motion map to whether the reported state is the on value, and then a
    restore over the configured light list is scheduled exactly when some
    flag in the motion map is true.  For an entry whose save interval is
    greater than zero [async_setup] raises [AttributeError] on
    [dt_util.timedelta] before it reaches [async_listen]: the host has no
    listener of the manager, and a notification, also one of a configured
    sensor that carries a new state, changes nothing and schedules
    nothing. *)
Theorem motion_notification (e : ConfigEntry) (w : World)
    (xs : list (stimulus World)) (event : Event) :
  let s := (run' (async_setup_entry w e) xs).1 in
  let save_interval := get (data e) CONF_SAVE_INTERVAL DEFAULT_SAVE_INTERVAL in
  let motion_sensors := get (data e) CONF_MOTION_SENSORS [] in
  let lights := get (data e) CONF_LIGHTS [] in
  let d := deliver' s (StateChanged event) in
  ((0 < save_interval)%Z →
     async_setup_entry_outcome e = Raised (AttributeError "timedelta")
     ∧ state_listener (registry s) = None
     ∧ d = (s, []))
  ∧ ((save_interval ≤ 0)%Z →
       (ev_entity_id event ∉ motion_sensors ∨ ev_new_state event = None → d = (s, []))
       ∧ (∀ new_state,
            ev_entity_id event ∈ motion_sensors → ev_new_state event = Some new_state →
            let active := <[ev_entity_id event := String.eqb (state new_state) STATE_ON]>
                            (_motion_active (manager s)) in
            _motion_active (manager d.1) = active
            ∧ _states (manager d.1) = _states (manager s)
            ∧ (some_active active ∧ d.2 = [CreateTask lights]
                 ∧ tasks (registry d.1) = (tasks (registry s) ++ [lights])%list
               ∨ ¬ some_active active ∧ d.2 = []
                 ∧ tasks (registry d.1) = tasks (registry s)))).
Proof.
  intros s save_interval motion_sensors lights d.
  destruct (run_keeps_setup states_get async_call w e xs) as (He & Hready & Hl & _).
  fold s in He, Hready, Hl.
  unfold registered_listener in Hl. unfold set_up in Hready.
  cbn [_setup_complete] in Hready. fold save_interval in Hl, Hready.
  split.
  - intros Hpos. rewrite setup_outcome. fold save_interval.
    rewrite (proj2 (Z.ltb_lt 0 save_interval) Hpos) in Hl |- *.
    split; [done|]. split; [done|]. unfold d. cbn [deliver]. by rewrite Hl.
  - intros Hle. rewrite (proj2 (Z.ltb_ge 0 save_interval) Hle) in Hl, Hready.
    cbn [negb] in Hready. unfold d. cbn [deliver]. rewrite Hl.
    unfold listener_of, motion_sensors, get.
    destruct (CONF_MOTION_SENSORS (data e)) as [[|sensor others]|] eqn:Hconf;
      cbn [default].
    1,3: split; [done|]; intros new_state Hin; by apply elem_of_nil in Hin.
    split.
    + intros Hign. rewrite motion_ignored by done. apply after_nothing.
    + intros new_state Hin Hnew.
      set (active := <[ev_entity_id event := String.eqb (state new_state) STATE_ON]>
                       (_motion_active (manager s))).
      rewrite (motion_tracked _ _ new_state) by done. fold active.
      unfold _handle_motion_change.
      cbn [set_motion_active _setup_complete _motion_active entry].
      rewrite Hready, He. cbn [negb]. fold lights.
      destruct (any_values active) eqn:Hany.
      * apply any_values_spec in Hany. cbn. split; [done|]. split; [done|]. by left.
      * cbn. rewrite app_nil_r. repeat split; try done.
        right. repeat split; try done.
        intros Hsome. apply any_values_spec in Hsome. congruence.
Qed.

(** C6. Save goes through the identifiers in input order and always
    returns.  Its notifications are those of the identifiers that are in
    the light domain and known to the host, in input order.  An
    identifier outside the light domain, or unknown to the host, emits
    nothing and leaves the store's entry for it as it was; a listed
    identifier that is neither gets its snapshot stored whatever was
    skipped around it; and a save over a list is the save over a prefix
    followed by the save over the rest. *)
Theorem save_skips_and_continues (ids : list string) (w : World)
    (self : LightStateManager) :
  let r := save ids w self in
  outcome_of r = Returned
  ∧ effects r = omap (saved_event states_get w) ids
  ∧ (∀ entity_id,
       startswith entity_id "light." = false ∨ states_get w entity_id = None →
       saved_event states_get w entity_id = None
       ∧ _states (self_after r) !! entity_id = _states self !! entity_id)
  ∧ (∀ entity_id st,
       entity_id ∈ ids → startswith entity_id "light." = true →
       states_get w entity_id = Some st →
       saved_event states_get w entity_id
         = Some (Fire EVENT_STATE_SAVED entity_id (_get_light_state st))
       ∧ _states (self_after r) !! entity_id = Some (_get_light_state st))
  ∧ (∀ l1 l2, ids = (l1 ++ l2)%list →
       r = emit (effects (save l1 w self)) (save l2 w (self_after (save l1 w self)))).
Proof.
  intros r. unfold r.
  split; [apply save_outcome|]. split; [apply save_effects|]. split; [|split].
  - intros entity_id Hskip.
    assert (saved_snapshot states_get w entity_id = None) as Hnone.
    { unfold saved_snapshot. destruct Hskip as [H|H]; rewrite H; [done|].
      by destruct (startswith entity_id "light."). }
    split; [|by apply save_lookup_skipped].
    unfold saved_event. by rewrite Hnone.
  - intros entity_id st Hin Hlight Hst.
    assert (saved_snapshot states_get w entity_id = Some (_get_light_state st)) as Hsome.
    { unfold saved_snapshot. by rewrite Hlight, Hst. }
    split; [|by apply save_lookup_saved].
    unfold saved_event. by rewrite Hsome.
  - intros l1 l2 ->. apply save_app.
Qed.

(** C7, the code against the claim.  [_handle_interval_save] itself does
    what the claim says: on a manager that is set up it is the save over
    the light list of the entry's data.  But no tick ever reaches it: in
    every state that a run reaches from [async_setup_entry] the host has
    no interval timer, whatever the save interval.  With a save interval
    of 0 or less [async_setup] does not ask for one; with a save interval
    greater than zero it raises [AttributeError] on [dt_util.timedelta]
    before [async_track_time_interval] is called, and leaves the manager
    not set up. *)
Theorem no_periodic_save (e : ConfigEntry) (w : World) (xs : list (stimulus World)) :
  let s := (run' (async_setup_entry w e) xs).1 in
  let save_interval := get (data e) CONF_SAVE_INTERVAL DEFAULT_SAVE_INTERVAL in
  time_interval (registry s) = None
  ∧ deliver' s TimeInterval = (s, [])
  ∧ ((0 < save_interval)%Z →
       async_setup_entry_outcome e = Raised (AttributeError "timedelta")
       ∧ _setup_complete (manager s) = false)
  ∧ ((save_interval ≤ 0)%Z →
       async_setup_entry_outcome e = Returned
       ∧ _setup_complete (manager s) = true)
  ∧ (∀ w' self, _setup_complete self = true →
       tick w' self = save (get (data (entry self)) CONF_LIGHTS []) w' self).
Proof.
  intros s save_interval.
  destruct (run_keeps_setup states_get async_call w e xs) as (He & Hready & _ & Htimer).
  fold s in He, Hready, Htimer.
  split; [done|]. split; [cbn [deliver]; by rewrite Htimer|].
  rewrite Hready, setup_outcome. unfold set_up. cbn [_setup_complete].
  fold save_interval. split; [|split].
  - intros Hpos. by rewrite (proj2 (Z.ltb_lt 0 save_interval) Hpos).
  - intros Hle. by rewrite (proj2 (Z.ltb_ge 0 save_interval) Hle).
  - intros w' self Hself. unfold _handle_interval_save. by rewrite Hself.
Qed.

(** C8. Clear removes the snapshot of every listed identifier, whether
    it had one or not, keeps the snapshot of every other identifier,
    keeps the motion map, emits nothing, issues nothing and returns. *)
Theorem clear_removes_listed (ids : list string) (w : World)
    (self : LightStateManager) :
  let r := clear ids w self in
  (∀ entity_id, entity_id ∈ ids → _states (self_after r) !! entity_id = None)
  ∧ (∀ entity_id, entity_id ∉ ids →
       _states (self_after r) !! entity_id = _states self !! entity_id)
  ∧ _motion_active (self_after r) = _motion_active self
  ∧ effects r = []
  ∧ outcome_of r = Returned.
Proof.
  intros r. unfold r.
  destruct (clear_frame ids w self) as (_ & Heff & Hout & _ & Hmotion & _).
  repeat split; try done.
  - intros entity_id Hin. rewrite clear_lookup. by rewrite bool_decide_eq_true_2.
  - intros entity_id Hnot. rewrite clear_lookup. by rewrite bool_decide_eq_false_2.
Qed.

(** C9. Two config entries with the same data and any options: set up
    from either, every run of stimuli produces the same trace and ends in
    the same system, the entry held by the manager apart; and each
    handler, run on a manager that holds the one entry or the other,
    gives the same host, trace and outcome and the same manager, the
    entry apart. *)
Theorem options_ignored (e1 e2 : ConfigEntry) :
  data e1 = data e2 →
  (∀ w xs,
     run' (async_setup_entry w e2) xs
     = (system_with_entry e2 (run' (async_setup_entry w e1) xs).1,
        (run' (async_setup_entry w e1) xs).2))
  ∧ (∀ self ids w motion_sensors event,
       entry self = e1 →
       save ids w (with_entry e2 self) = on_self (with_entry e2) (save ids w self)
       ∧ restore ids w (with_entry e2 self) = on_self (with_entry e2) (restore ids w self)
       ∧ clear ids w (with_entry e2 self) = on_self (with_entry e2) (clear ids w self)
       ∧ tick w (with_entry e2 self) = on_self (with_entry e2) (tick w self)
       ∧ handle_motion motion_sensors event w (with_entry e2 self)
         = on_self (with_entry e2) (handle_motion motion_sensors event w self)).
Proof.
  intros He. split.
  - intros w xs. rewrite (setup_with_entry w e1 e2 He).
    apply run_with_entry. by rewrite setup_manager.
  - intros self ids w motion_sensors event Hself.
    assert (data e2 = data (entry self)) as Hd by (by rewrite Hself).
    split; [apply save_with_entry|].
    split; [by apply restore_with_entry|].
    split; [apply clear_with_entry|].
    split; [by apply tick_with_entry|by apply motion_with_entry].
Qed.

(** C10. Every key of the snapshot store starts with ["light."]: this
    holds of a fresh manager, each of save, restore, clear, the timer
    tick and the motion handler keeps it, and so it holds in every state
    that a run reaches. *)
Theorem store_keys_light :
  (∀ e, light_keys (_states (__init__ e)))
  ∧ (∀ ids w motion_sensors event self,
       light_keys (_states self) →
       light_keys (_states (self_after (save ids w self)))
       ∧ light_keys (_states (self_after (restore ids w self)))
       ∧ light_keys (_states (self_after (clear ids w self)))
       ∧ light_keys (_states (self_after (tick w self)))
       ∧ light_keys (_states (self_after (handle_motion motion_sensors event w self))))
  ∧ (∀ w e xs, light_keys (_states (manager (run' (async_setup_entry w e) xs).1))).
Proof.
  split; [intros e; apply map_Forall_empty|]. split.
  - intros ids w motion_sensors event self H.
    split; [by apply save_light_keys|].
    split; [unfold _handle_restore_state; by rewrite restore_self|].
    split; [by apply clear_forall|].
    split.
    + unfold _handle_interval_save. destruct (_setup_complete self); [|done].
      by apply save_light_keys.
    + by destruct (motion_frame motion_sensors event w self) as (_ & _ & _ & -> & _).
  - intros. apply run_light_keys.
Qed.

End Claims.

(** ** The claims on the concrete host *)

Section Concrete.

Import Demo.

Local Abbreviation save := (_handle_save_state Demo.states_get).
Local Abbreviation restore := (_handle_restore_state Demo.async_call).
Local Abbreviation deliver' := (deliver Demo.states_get Demo.async_call).
Local Abbreviation run' := (run Demo.states_get Demo.async_call).

Lemma saved_captured : captured (_states saved).
Proof. apply save_captured, map_Forall_empty. Qed.


(** The kitchen light, saved at brightness 200 and restored: the command
    carries the brightness and the configured transition of 2.5 s. *)
Lemma save_then_restore_reproduces_witness :
  effects (restore ["light.kitchen"] broken_home
             (self_after (save ["switch.x"; "light.kitchen"] home (__init__ the_entry))))
  = [Call "light" SERVICE_TURN_ON
       {[ "entity_id" := VStr "light.kitchen"; "transition" := VFloat (5 # 2);
          "brightness" := VInt 200 ]};
     Fire EVENT_STATE_RESTORED "light.kitchen"
       {[ "state" := VStr "on"; "brightness" := VInt 200 ]}].
Proof.
  refine (eq_trans
    (proj1 (proj2 (save_then_restore_reproduces Demo.states_get Demo.async_call
       ["switch.x"; "light.kitchen"] "light.kitchen" kitchen_on home broken_home
       (__init__ the_entry) _ _ _ _))) _).
  - right. left.
  - reflexivity.
  - vm_compute. reflexivity.
  - reflexivity.
  - vm_compute. reflexivity.
Defined.


(** The hall light was saved off and ["light.none"] was never saved:
    nothing in the restore trace is about either. *)
Lemma restore_only_stored_on_witness :
  captured (_states saved)
  ∧ (Call "light" SERVICE_TURN_OFF ∅
       ∉ effects (restore ["light.hall"; "light.none"; "light.kitchen"] home saved))
  ∧ (effect_entity (Fire EVENT_STATE_RESTORED "light.kitchen" (_get_light_state kitchen_on))
       ≠ Some (VStr "light.hall"))
  ∧ (effect_entity (Fire EVENT_STATE_RESTORED "light.kitchen" (_get_light_state kitchen_on))
       ≠ Some (VStr "light.none")).
Proof.
  pose proof (restore_only_stored_on Demo.async_call
                ["light.hall"; "light.none"; "light.kitchen"] home saved saved_captured)
    as (_ & Hoff & Hskip).
  split; [exact saved_captured|]. split; [apply Hoff|]. split.
  - apply (Hskip "light.hall").
    + right. exists (_get_light_state hall_off). split; [vm_compute; reflexivity|].
      vm_compute. discriminate.
    + vm_compute. right. left.
  - apply (Hskip "light.none").
    + left. vm_compute. reflexivity.
    + vm_compute. right. left.
Defined.


(** The desk light fails after the kitchen light went through: the hall
    light behind it is never reached. *)
Lemma restore_failure_aborts_witness :
  let r := restore ["light.kitchen"; "light.desk"; "light.hall"] broken_home saved in
  outcome_of r = Raised ServiceCallFailed
  ∧ effects r
    = (effects (restore ["light.kitchen"] broken_home saved)
       ++ [Call "light" SERVICE_TURN_ON
             (service_data_of "light.desk" (VFloat (5 # 2)) (_get_light_state desk_on))])%list
  ∧ self_after r = saved.
Proof.
  pose proof (restore_failure_aborts Demo.async_call ["light.kitchen"] ["light.hall"]
                "light.desk" (_get_light_state desk_on) broken_home saved) as H.
  destruct H as (Hout & Heff & Hself & _).
  - vm_compute. reflexivity.
  - vm_compute. reflexivity.
  - vm_compute. reflexivity.
  - vm_compute. reflexivity.
  - split; [exact Hout|]. split; [exact Heff|exact Hself].
Defined.

(** The entry with a save interval of 60 and sensors a and b: its setup
    raises, and sensor a turning on changes nothing.  The same entry with
    the periodic save switched off: the setup completes, the porch sensor
    is not configured and is ignored, and sensor a turning on schedules a
    restore over the configured lights. *)
Lemma motion_notification_witness :
  let s60 := (run' (async_setup_entry home the_entry)
                [ServiceCall "save_state" ["light.kitchen"]]).1 in
  let s := (run' (async_setup_entry home motion_entry)
              [ServiceCall "save_state" ["light.kitchen"]]).1 in
  let on_event sensor := StateChanged (mkEvent sensor (Some (mkState "on" ∅))) in
  get (data the_entry) CONF_MOTION_SENSORS [] = ["binary_sensor.a"; "binary_sensor.b"]
  ∧ deliver' s60 (on_event "binary_sensor.a") = (s60, [])
  ∧ deliver' s (on_event "binary_sensor.porch") = (s, [])
  ∧ (deliver' s (on_event "binary_sensor.a")).2
    = [CreateTask ["light.kitchen"; "light.hall"]].
Proof.
  intros s60 s on_event.
  split; [reflexivity|]. split; [|split].
  - destruct (proj1 (motion_notification Demo.states_get Demo.async_call
                       the_entry home [ServiceCall "save_state" ["light.kitchen"]]
                       (mkEvent "binary_sensor.a" (Some (mkState "on" ∅)))))
      as (_ & _ & H); [reflexivity|exact H].
  - refine (proj1 (proj2 (motion_notification Demo.states_get Demo.async_call
                       motion_entry home [ServiceCall "save_state" ["light.kitchen"]]
                       (mkEvent "binary_sensor.porch" (Some (mkState "on" ∅))))
                     (Z.le_refl 0)) _).
    left. intros H. not_listed H.
  - destruct (proj2 (proj2 (motion_notification Demo.states_get Demo.async_call
                         motion_entry home [ServiceCall "save_state" ["light.kitchen"]]
                         (mkEvent "binary_sensor.a" (Some (mkState "on" ∅))))
                       (Z.le_refl 0))
                (mkState "on" ∅)) as (_ & _ & [(_ & H & _)|(Hnone & _)]).
    + left.
    + reflexivity.
    + exact H.
    + exfalso. apply Hnone. exists "binary_sensor.a". apply lookup_insert_eq.
Defined.

(** A switch and an unknown light in front do not keep the kitchen light
    from being saved. *)
Lemma save_skips_and_continues_witness :
  let r := save ["switch.x"; "light.none"; "light.kitchen"] home (__init__ the_entry) in
  outcome_of r = Returned
  ∧ _states (self_after r) !! "switch.x" = _states (__init__ the_entry) !! "switch.x"
  ∧ _states (self_after r) !! "light.none" = _states (__init__ the_entry) !! "light.none"
  ∧ _states (self_after r) !! "light.kitchen" = Some (_get_light_state kitchen_on).
Proof.
  intros r.
  pose proof (save_skips_and_continues Demo.states_get
                ["switch.x"; "light.none"; "light.kitchen"] home (__init__ the_entry))
    as (Hout & _ & Hskip & Hsaved & _).
  split; [exact Hout|]. split; [|split].
  - apply (Hskip "switch.x"). left. reflexivity.
  - apply (Hskip "light.none"). right. vm_compute. reflexivity.
  - apply (Hsaved "light.kitchen" kitchen_on).
    + right. right. left.
    + reflexivity.
    + vm_compute. reflexivity.
Defined.

(** The entry with a save interval of 60: its setup raises, the manager
    is not set up and a tick reaches nobody. *)
Lemma no_periodic_save_witness :
  let s := (run' (async_setup_entry home the_entry)
              [HostChange broken_home; ServiceCall "restore_state" ["light.desk"]]).1 in
  async_setup_entry_outcome the_entry = Raised (AttributeError "timedelta")
  ∧ _setup_complete (manager s) = false
  ∧ deliver' s TimeInterval = (s, []).
Proof.
  intros s.
  pose proof (no_periodic_save Demo.states_get Demo.async_call the_entry home
                [HostChange broken_home; ServiceCall "restore_state" ["light.desk"]])
    as (_ & Htick & Hpos & _).
  destruct Hpos as [Hout Hnot]; [reflexivity|].
  split; [exact Hout|]. split; [exact Hnot|exact Htick].
Defined.

(** Clearing the kitchen light and a light without snapshot keeps the
    desk light. *)
Lemma clear_removes_listed_witness :
  let r := _handle_clear_states ["light.kitchen"; "light.none"] home saved in
  _states (self_after r) !! "light.kitchen" = None
  ∧ _states (self_after r) !! "light.desk" = _states saved !! "light.desk".
Proof.
  intros r.
  pose proof (clear_removes_listed ["light.kitchen"; "light.none"] home saved)
    as (Hin & Hout & _).
  split.
  - apply Hin. left.
  - apply Hout. intros H. not_listed H.
Defined.

(** The entry as set up and the entry with edited options run alike. *)
Lemma options_ignored_witness :
  let xs := [TimeInterval;
             StateChanged (mkEvent "binary_sensor.b" (Some (mkState "on" ∅)));
             RunTask] in
  data the_entry = data edited_entry
  ∧ run' (async_setup_entry home edited_entry) xs
    = (system_with_entry edited_entry (run' (async_setup_entry home the_entry) xs).1,
       (run' (async_setup_entry home the_entry) xs).2).
Proof.
  intros xs. split; [reflexivity|].
  apply (proj1 (options_ignored Demo.states_get Demo.async_call the_entry edited_entry
                  eq_refl)).
Defined.

(** The store after a save that was also handed a switch. *)
Lemma store_keys_light_witness :
  light_keys (_states (__init__ the_entry)) ∧ light_keys (_states saved).
Proof.
  pose proof (store_keys_light Demo.states_get Demo.async_call) as (Hinit & Hkeep & _).
  split; [apply Hinit|].
  apply (Hkeep ["light.kitchen"; "switch.x"; "light.desk"; "light.hall"] home
           [] (mkEvent "" None) (__init__ the_entry) (Hinit the_entry)).
Defined.

End Concrete.

(** ** More about save, clear and restore *)

Lemma manager_eq (a b : LightStateManager) :
  entry a = entry b → _states a = _states b → _motion_active a = _motion_active b →
  _cancel_save_interval a = _cancel_save_interval b →
  _setup_complete a = _setup_complete b → a = b.
Proof. destruct a, b. simpl. by intros -> -> -> -> ->. Qed.

Lemma result_eq {World : Type} (a b : result World) :
  world a = world b → self_after a = self_after b → effects a = effects b →
  outcome_of a = outcome_of b → a = b.
Proof. destruct a, b. simpl. by intros -> -> -> ->. Qed.

Section MoreHandlerProperties.

Context {World : Type}
        (states_get : World → string → option State)
        (async_call : World → string → string → gmap string value → World * bool).

Local Abbreviation save := (_handle_save_state states_get).
Local Abbreviation restore := (_handle_restore_state async_call).
Local Abbreviation clear := (@_handle_clear_states World).

Lemma save_lookup ids (w : World) self k :
  _states (self_after (save ids w self)) !! k
  = match (if bool_decide (k ∈ ids) then saved_snapshot states_get w k else None) with
    | Some d => Some d
    | None => _states self !! k
    end.
Proof.
  case_bool_decide as Hin.
  - destruct (saved_snapshot states_get w k) as [d|] eqn:Hd.
    + by apply save_lookup_saved.
    + by apply save_lookup_skipped.
  - by apply save_lookup_not_listed.
Qed.

(** X1. Saving again, over identifiers that the save before covered and
    with the host unchanged, leaves the store as it was; saving the same
    list again emits the same notifications again. *)
Theorem save_again_same_store (ids ids' : list string) (w : World)
    (self : LightStateManager) :
  (∀ entity_id, entity_id ∈ ids' → entity_id ∈ ids) →
  self_after (save ids' w (self_after (save ids w self))) = self_after (save ids w self)
  ∧ effects (save ids w (self_after (save ids w self))) = effects (save ids w self).
Proof.
  intros Hsub. split; [|by rewrite !save_effects].
  destruct (save_frame states_get ids' w (self_after (save ids w self)))
    as (? & ? & ? & ?).
  apply manager_eq; try done.
  apply map_eq. intros k. rewrite save_lookup.
  case_bool_decide as Hin; [|done].
  destruct (saved_snapshot states_get w k) as [d|] eqn:Hd; [|done].
  symmetry. apply save_lookup_saved; auto.
Qed.

(** X2. Every saved notification carries the snapshot that the store holds
    for its identifier when the save returns. *)
Theorem saved_event_is_stored (ids : list string) (w : World)
    (self : LightStateManager) (entity_id : string) (state_data : gmap string value) :
  Fire EVENT_STATE_SAVED entity_id state_data ∈ effects (save ids w self) →
  _states (self_after (save ids w self)) !! entity_id = Some state_data.
Proof.
  rewrite save_effects. intros H.
  apply list_elem_of_omap in H as (x & Hx & He).
  unfold saved_event in He.
  destruct (saved_snapshot states_get w x) as [d|] eqn:Hd; [|done].
  injection He as -> ->. by apply save_lookup_saved.
Qed.

(** X3. The snapshot of a light has the reported state under ["state"],
    each of the six relevant attributes exactly when the light has it, with
    the light's value, and no other key; so it has at most seven keys. *)
Theorem snapshot_contents (st : State) :
  (∀ key,
     _get_light_state st !! key
     = if bool_decide (key = "state") then Some (VStr (state st))
       else if bool_decide (key ∈ RELEVANT_ATTRS) then attributes st !! key
       else None)
  ∧ (size (_get_light_state st) ≤ 7)%nat.
Proof.
  assert (∀ key,
     _get_light_state st !! key
     = if bool_decide (key = "state") then Some (VStr (state st))
       else if bool_decide (key ∈ RELEVANT_ATTRS) then attributes st !! key
       else None) as Hlookup.
  { intros key. case_bool_decide as Hs; [subst; apply get_light_state_state|].
    case_bool_decide as Hr; [by apply get_light_state_attr|].
    by apply get_light_state_other. }
  split; [done|].
  assert (dom (_get_light_state st) ⊆ list_to_set ("state" :: RELEVANT_ATTRS)) as Hsub.
  { intros key Hkey. apply elem_of_dom in Hkey as [v Hv].
    rewrite Hlookup in Hv. apply elem_of_list_to_set.
    case_bool_decide as Hs; [subst; left|].
    case_bool_decide as Hr; [by right|done]. }
  rewrite <- size_dom. etrans; [apply (subseteq_size _ _ Hsub)|].
  by vm_compute.
Qed.

Lemma clear_world ids (w : World) self : world (clear ids w self) = w.
Proof. by destruct (clear_frame ids w self) as (? & _). Qed.

(** X4. Clear looks at which identifiers are listed, not at their order or
    number: two lists with the same members give the same result, and
    clearing twice is clearing once. *)
Theorem clear_by_membership (ids ids' : list string) (w : World)
    (self : LightStateManager) :
  (∀ entity_id, entity_id ∈ ids ↔ entity_id ∈ ids') →
  clear ids w self = clear ids' w self
  ∧ clear ids w (self_after (clear ids w self))
    = clear ids w self.
Proof.
  intros Hsame.
  destruct (clear_frame ids w self) as (Hw & He & Ho & H1 & H2 & H3 & H4).
  destruct (clear_frame ids' w self) as (Hw' & He' & Ho' & H1' & H2' & H3' & H4').
  split.
  - apply result_eq; try congruence.
    apply manager_eq; try congruence.
    apply map_eq. intros k. rewrite !clear_lookup.
    destruct (decide (k ∈ ids)) as [Hin|Hnot].
    + rewrite !bool_decide_eq_true_2; [done|by apply Hsame|done].
    + rewrite !bool_decide_eq_false_2; [done| |done]. by rewrite <- Hsame.
  - destruct (clear_frame ids w (self_after (clear ids w self)))
      as (Hw2 & He2 & Ho2 & G1 & G2 & G3 & G4).
    apply result_eq; try congruence.
    apply manager_eq; try congruence.
    apply map_eq. intros k. rewrite !clear_lookup.
    by case_bool_decide.
Qed.

(** X5. After a clear, a restore over identifiers that the clear listed
    does nothing: no command, no notification, the host and the manager
    untouched, whatever was saved before. *)
Theorem restore_after_clear (ids ids' : list string) (w w' : World)
    (self : LightStateManager) :
  (∀ entity_id, entity_id ∈ ids' → entity_id ∈ ids) →
  restore ids' w' (self_after (clear ids w self))
  = mkResult w' (self_after (clear ids w self)) [] Returned.
Proof.
  intros Hsub. unfold _handle_restore_state. set (t := get _ _ _). clearbody t.
  induction ids' as [|i ids' IH]; [done|].
  rewrite restore_skip_absent.
  - apply IH. intros x Hx. apply Hsub. by right.
  - rewrite clear_lookup. rewrite bool_decide_eq_true_2; [done|]. apply Hsub. left.
Qed.

(** X6. With a driver that acknowledges every command, restore over a
    store of captured snapshots returns, and its trace is, identifier by
    identifier in input order, the command followed by the notification
    for each identifier whose snapshot is on and nothing for the others;
    an identifier listed twice is restored twice. *)
Theorem restore_acknowledged (ids : list string) (w : World)
    (self : LightStateManager) :
  captured (_states self) →
  (∀ w' service_data, (async_call w' "light" SERVICE_TURN_ON service_data).2 = true) →
  let transition := get (data (entry self)) CONF_TRANSITION DEFAULT_TRANSITION in
  outcome_of (restore ids w self) = Returned
  ∧ effects (restore ids w self) = concat (map (restore_block self transition) ids).
Proof.
  intros Hcap Hack transition. unfold _handle_restore_state. fold transition.
  revert w. induction ids as [|i ids IH]; intros w; [done|].
  cbn [restore_loop map concat]. unfold restore_block at 1.
  destruct (_states self !! i) as [d|] eqn:Hi; [|apply IH].
  destruct (Hcap i d Hi) as [st ->].
  rewrite get_light_state_state.
  destruct (not_state_on (VStr (state st))); [apply IH|].
  specialize (Hack w (service_data_of i transition (_get_light_state st))).
  destruct (async_call w _ _ _) as [w1 ack]. simpl in Hack. subst ack.
  destruct (IH w1) as [Hout Heff]. simpl. by rewrite Heff.
Qed.

Lemma count_calls_cons e es :
  count_calls (e :: es) = (if is_call e then 1 else 0) + count_calls es.
Proof. unfold count_calls. by destruct e. Qed.

Lemma count_fires_cons e es :
  count_fires (e :: es) = (if is_fire e then 1 else 0) + count_fires es.
Proof. unfold count_fires. by destruct e. Qed.

(** X7. In a restore trace every command that was acknowledged has its
    notification: the commands are as many as the notifications when
    restore returns, and one more when it ends in a failed service call,
    the failed command being the last effect. *)
Theorem restore_commands_and_notifications (ids : list string) (w : World)
    (self : LightStateManager) :
  count_calls (effects (restore ids w self))
  = count_fires (effects (restore ids w self))
    + (match outcome_of (restore ids w self) with
       | Raised ServiceCallFailed => 1
       | _ => 0
       end)
  ∧ (match outcome_of (restore ids w self) with
     | Raised ServiceCallFailed =>
         ∃ service_data,
           last (effects (restore ids w self))
           = Some (Call "light" SERVICE_TURN_ON service_data)
     | _ => True
     end).
Proof.
  unfold _handle_restore_state. set (t := get _ _ _). clearbody t.
  revert w. induction ids as [|i ids IH]; intros w; [done|].
  cbn [restore_loop].
  destruct (_states self !! i) as [d|]; [|apply IH].
  destruct (d !! "state") as [s|]; [|done].
  destruct (not_state_on s); [apply IH|].
  destruct (async_call w _ _ _) as [w1 []]; cbn [effects emit outcome_of app].
  - destruct (IH w1) as [Hcount Hlast].
    rewrite !count_calls_cons, !count_fires_cons, Hcount. cbn [is_call is_fire].
    split; [lia|].
    destruct (outcome_of _) as [|[]]; try done.
    destruct Hlast as [sd Hsd]. exists sd.
    destruct (effects (restore_loop async_call t ids w1 self)); [done|].
    done.
  - split; [done|]. eauto.
Qed.

End MoreHandlerProperties.

(** ** More about the motion handlers and the system *)

Lemma any_values_insert (m : gmap string bool) k b :
  any_values (<[k := b]> m) = b || any_values (delete k m).
Proof.
  apply eq_true_iff_eq. rewrite orb_true_iff, !any_values_spec. unfold some_active.
  split.
  - intros (j & Hj). destruct (decide (k = j)) as [->|Hne].
    + rewrite lookup_insert_eq in Hj. injection Hj as ->. by left.
    + rewrite lookup_insert_ne in Hj by done. right. exists j.
      by rewrite lookup_delete_ne.
  - intros [->|(j & Hj)].
    + exists k. apply lookup_insert_eq.
    + exists j. destruct (decide (k = j)) as [->|Hne].
      * by rewrite lookup_delete_eq in Hj.
      * rewrite lookup_delete_ne in Hj by done. by rewrite lookup_insert_ne.
Qed.

Section MoreSystemProperties.

Context {World : Type}
        (states_get : World → string → option State)
        (async_call : World → string → string → gmap string value → World * bool).

Local Abbreviation save := (_handle_save_state states_get).
Local Abbreviation restore := (_handle_restore_state async_call).
Local Abbreviation tick := (_handle_interval_save states_get).
Local Abbreviation handle := (run_handler states_get async_call).
Local Abbreviation deliver' := (deliver states_get async_call).
Local Abbreviation run' := (run states_get async_call).

(** X8. No debounce.  On a set-up manager, a notification of a configured
    sensor with a new state schedules a restore over the configured lights
    when the sensor reports on or the flag of some other sensor is true,
    and schedules nothing otherwise; so a sensor that turns off while
    another is still active schedules a restore again. *)
Theorem motion_schedules (motion_sensors : list string) (event : Event)
    (new_state : State) (w : World) (self : LightStateManager) :
  _setup_complete self = true →
  ev_entity_id event ∈ motion_sensors →
  ev_new_state event = Some new_state →
  effects (handle_motion motion_sensors event w self)
  = if String.eqb (state new_state) STATE_ON
       || any_values (delete (ev_entity_id event) (_motion_active self))
    then [CreateTask (get (data (entry self)) CONF_LIGHTS [])]
    else [].
Proof.
  intros Hready Hin Hnew. rewrite (motion_tracked _ _ new_state) by done.
  unfold _handle_motion_change. cbn [set_motion_active _setup_complete _motion_active entry].
  rewrite Hready. cbn [negb]. rewrite any_values_insert.
  by destruct (_ || _).
Qed.

Lemma handler_motion_active h ids (w : World) self :
  _motion_active (self_after (handle h ids w self)) = _motion_active self.
Proof.
  destruct h; simpl.
  - by destruct (save_frame states_get ids w self) as (_ & ? & _).
  - unfold _handle_restore_state. by rewrite restore_self.
  - by destruct (clear_frame ids w self) as (_ & _ & _ & _ & ? & _).
Qed.

Lemma tick_motion_active (w : World) self :
  _motion_active (self_after (tick w self)) = _motion_active self.
Proof.
  unfold _handle_interval_save. destruct (_setup_complete self); [|done].
  apply (handler_motion_active save_state_handler).
Qed.

(** What one stimulus reports for [sensor]. *)
Lemma deliver_motion_lookup (listener : option (list string)) s x sensor :
  state_listener (registry s) = listener →
  _motion_active (manager (deliver' s x).1) !! sensor
  = match last_reported (default [] listener) sensor [x] with
    | Some b => Some b
    | None => _motion_active (manager s) !! sensor
    end.
Proof.
  intros Hl. destruct x; cbn [last_reported deliver].
  - destruct (services (registry s) !! service); [|done].
    cbn. by rewrite handler_motion_active.
  - destruct (time_interval (registry s)); [|done].
    cbn. by rewrite tick_motion_active.
  - rewrite Hl. destruct listener as [l|]; cbn [default].
    + cbn [after fst manager self_after].
      destruct (decide (ev_entity_id event ∈ l)) as [Hin|Hnot].
      * destruct (ev_new_state event) as [ns|] eqn:Hns.
        -- rewrite (motion_tracked _ _ ns) by done.
           destruct (motion_change_frame (hass s) (set_motion_active
             (<[ev_entity_id event := String.eqb (state ns) STATE_ON]>
                (_motion_active (manager s))) (manager s))) as (_ & -> & _).
           cbn [set_motion_active _motion_active fmap option_fmap option_map].
           case_bool_decide as Hk.
           ++ destruct Hk as [<- _]. apply lookup_insert_eq.
           ++ apply lookup_insert_ne. intros Heq. apply Hk. split; [done|by subst].
        -- rewrite motion_ignored by auto. cbn. by case_bool_decide.
      * rewrite motion_ignored by auto. cbn [self_after].
        rewrite bool_decide_eq_false_2; [done|]. intros [<- H]. done.
    + rewrite bool_decide_eq_false_2; [done|]. intros [_ H]. by apply elem_of_nil in H.
  - destruct (tasks (registry s)); [done|].
    cbn. unfold _handle_restore_state. by rewrite restore_self.
  - done.
  - done.
Qed.

Lemma last_reported_cons (sensors : list string) sensor (x : stimulus World) xs :
  last_reported sensors sensor (x :: xs)
  = match last_reported sensors sensor xs with
    | Some b => Some b
    | None => last_reported sensors sensor [x]
    end.
Proof. cbn [last_reported]. by destruct (last_reported sensors sensor xs). Qed.

Lemma run_motion_lookup (listener : option (list string)) s xs sensor :
  state_listener (registry s) = listener →
  _motion_active (manager (run' s xs).1) !! sensor
  = match last_reported (default [] listener) sensor xs with
    | Some b => Some b
    | None => _motion_active (manager s) !! sensor
    end.
Proof.
  revert s. induction xs as [|x xs IH]; intros s Hl; [done|].
  rewrite run_cons. cbn [fst]. rewrite IH by (by rewrite deliver_listener).
  rewrite last_reported_cons.
  destruct (last_reported _ sensor xs); [done|].
  by apply deliver_motion_lookup.
Qed.

(** X9. In every state that a run reaches from [async_setup_entry], the
    motion map holds for each sensor what the last notification taken up
    for it reported (a sensor the manager listens to, new state present),
    and nothing for a sensor without such a notification; service calls,
    timer ticks, restores and unloading never touch it.  The manager
    listens to the configured sensors when its setup completed (save
    interval not above zero) and to none when its setup raised. *)
Theorem motion_map_last_reported (e : ConfigEntry) (w : World)
    (xs : list (stimulus World)) (sensor : string) :
  let save_interval := get (data e) CONF_SAVE_INTERVAL DEFAULT_SAVE_INTERVAL in
  _motion_active (manager (run' (async_setup_entry w e) xs).1) !! sensor
  = last_reported (listened_sensors (data e)) sensor xs
  ∧ ((save_interval ≤ 0)%Z →
       listened_sensors (data e) = get (data e) CONF_MOTION_SENSORS [])
  ∧ ((0 < save_interval)%Z → listened_sensors (data e) = []).
Proof.
  intros save_interval. split; [|split].
  - rewrite (run_motion_lookup (registered_listener (data e))) by apply setup_listener.
    rewrite setup_manager. cbn [_motion_active set_up]. unfold listened_sensors.
    by destruct (last_reported _ sensor xs).
  - intros Hle. unfold listened_sensors, registered_listener.
    fold save_interval. rewrite (proj2 (Z.ltb_ge 0 save_interval) Hle).
    unfold listener_of, get.
    by destruct (CONF_MOTION_SENSORS (data e)) as [[|? ?]|].
  - intros Hpos. unfold listened_sensors, registered_listener.
    fold save_interval. by rewrite (proj2 (Z.ltb_lt 0 save_interval) Hpos).
Qed.

(** *** The traces of runs *)

Lemma save_manager_effects lights ids (w : World) self :
  Forall (manager_effect lights) (effects (save ids w self)).
Proof.
  rewrite save_effects. apply Forall_forall. intros e He.
  apply list_elem_of_omap in He as (x & _ & Hx). unfold saved_event in Hx.
  destruct (saved_snapshot states_get w x); [|done].
  injection Hx as <-. constructor.
Qed.

Lemma restore_manager_effects lights ids (w : World) self :
  Forall (manager_effect lights) (effects (restore ids w self)).
Proof.
  apply Forall_forall. intros e He. unfold _handle_restore_state in He.
  apply restore_effects in He as (i & _ & Hi). destruct Hi; constructor.
Qed.

Lemma deliver_manager_effects s x :
  Forall (manager_effect (get (data (entry (manager s))) CONF_LIGHTS []))
         (deliver' s x).2.
Proof.
  destruct x; cbn [deliver]; try by constructor.
  - destruct (services (registry s) !! service) as [[]|]; cbn.
    + apply save_manager_effects.
    + apply restore_manager_effects.
    + destruct (clear_frame entity_ids (hass s) (manager s)) as (_ & -> & _).
      constructor.
    + constructor.
  - destruct (time_interval (registry s)); [|constructor]. cbn.
    unfold _handle_interval_save.
    destruct (_setup_complete (manager s)); [apply save_manager_effects|constructor].
  - destruct (state_listener (registry s)) as [l|]; [|constructor]. cbn.
    unfold handle_motion. destruct (not_in _ _); [constructor|].
    destruct (ev_new_state event); [|constructor].
    unfold _handle_motion_change. cbn.
    destruct (_setup_complete (manager s)); cbn; [|constructor].
    destruct (any_values _); repeat constructor.
  - destruct (tasks (registry s)); [constructor|]. cbn.
    apply restore_manager_effects.
Qed.

(** X10. Whatever stimuli a set-up system receives, every effect of the
    whole run is a turn-on call to the light domain, a saved or a restored
    notification, or a restore task over the configured light list: the
    manager never calls another service, so never turns a light off, and
    never schedules a restore over anything but the configured lights. *)
Theorem run_effects_shape (e : ConfigEntry) (w : World) (xs : list (stimulus World)) :
  Forall (manager_effect (get (data e) CONF_LIGHTS []))
         (run' (async_setup_entry w e) xs).2
  ∧ (∀ domain service_data,
       Call domain SERVICE_TURN_OFF service_data ∉ (run' (async_setup_entry w e) xs).2).
Proof.
  assert (∀ s, entry (manager s) = e →
            Forall (manager_effect (get (data e) CONF_LIGHTS [])) (run' s xs).2) as H.
  { induction xs as [|x xs IH]; intros s He; [constructor|].
    rewrite run_cons. cbn [snd]. apply Forall_app. split.
    - rewrite <- He. by apply deliver_manager_effects.
    - destruct (deliver_stable states_get async_call s x) as (He' & _).
      apply IH; congruence. }
  assert (Forall (manager_effect (get (data e) CONF_LIGHTS []))
            (run' (async_setup_entry w e) xs).2) as Hall.
  { apply H; by rewrite setup_manager. }
  split; [done|].
  intros domain service_data Hin.
  rewrite Forall_forall in Hall. specialize (Hall _ Hin). inversion Hall.
Qed.

(** *** Unloading *)

Lemma deliver_services s x :
  services (registry (deliver' s x).1)
  = match x with
    | Unload => delete SERVICE_CLEAR_STATES
                  (delete SERVICE_RESTORE_STATE
                     (delete SERVICE_SAVE_STATE (services (registry s))))
    | _ => services (registry s)
    end.
Proof.
  destruct x; cbn [deliver].
  - destruct (services (registry s) !! service) eqn:H; simpl; by rewrite ?H.
  - destruct (time_interval (registry s)); cbn; reflexivity.
  - destruct (state_listener (registry s)); cbn; reflexivity.
  - destruct (tasks (registry s)) eqn:H; cbn; reflexivity.
  - reflexivity.
  - cbn. destruct (_cancel_save_interval (manager s)); cbn; reflexivity.
Qed.

Lemma deliver_manager_unload s : manager (deliver' s Unload).1 = manager s.
Proof. done. Qed.

Lemma setup_services (w : World) e :
  services (registry (async_setup_entry w e))
  = <[SERVICE_CLEAR_STATES := clear_states_handler]>
      (<[SERVICE_RESTORE_STATE := restore_state_handler]>
         (<[SERVICE_SAVE_STATE := save_state_handler]> ∅)).
Proof.
  unfold async_setup_entry, async_setup. simpl.
  destruct (0 <? _)%Z; simpl; [done|].
  by destruct (CONF_MOTION_SENSORS (data e)) as [[|? ?]|].
Qed.

Lemma run_app s xs ys :
  run' s (xs ++ ys) = ((run' (run' s xs).1 ys).1, ((run' s xs).2 ++ (run' (run' s xs).1 ys).2)%list).
Proof.
  revert s. induction xs as [|x xs IH]; intros s.
  { cbn. by destruct (run' s ys). }
  rewrite <- app_comm_cons, !run_cons, IH. cbn [fst snd]. by rewrite app_assoc.
Qed.

End MoreSystemProperties.

Section UnloadProperties.

Context {World : Type}
        (states_get : World → string → option State)
        (async_call : World → string → string → gmap string value → World * bool).

Local Abbreviation deliver' := (deliver states_get async_call).
Local Abbreviation run' := (run states_get async_call).

Lemma setup_loaded (w : World) e : loaded (async_setup_entry w e).
Proof.
  split.
  - intros name. rewrite setup_services. intros [h Hh].
    destruct (decide (name = SERVICE_CLEAR_STATES)) as [->|H1]; [auto|].
    rewrite lookup_insert_ne in Hh by done.
    destruct (decide (name = SERVICE_RESTORE_STATE)) as [->|H2]; [auto|].
    rewrite lookup_insert_ne in Hh by done.
    destruct (decide (name = SERVICE_SAVE_STATE)) as [->|H3]; [auto|].
    by rewrite lookup_insert_ne in Hh.
  - left. apply setup_timer.
Qed.

Lemma loaded_deliver s x : loaded s → loaded (deliver' s x).1.
Proof.
  intros [Hserv Htimer]. split.
  - intros name. rewrite deliver_services. destruct x; try apply Hserv.
    intros [h Hh]. apply Hserv.
    apply lookup_delete_Some in Hh as [_ Hh].
    apply lookup_delete_Some in Hh as [_ Hh].
    apply lookup_delete_Some in Hh as [_ Hh]. eauto.
  - destruct (deliver_stable states_get async_call s x) as (_ & -> & _).
    destruct x; try (rewrite deliver_timer by done; exact Htimer).
    cbn. destruct (_cancel_save_interval (manager s)) eqn:Hc; cbn; [by left|].
    destruct Htimer as [?|[? ?]]; [by left|done].
Qed.

Lemma loaded_unload s : loaded s → unloaded (deliver' s Unload).1.
Proof.
  intros [Hserv Htimer]. split.
  - rewrite deliver_services. apply map_eq. intros name.
    rewrite lookup_empty.
    destruct (decide (name = SERVICE_CLEAR_STATES)) as [->|H1]; [apply lookup_delete_eq|].
    rewrite lookup_delete_ne by done.
    destruct (decide (name = SERVICE_RESTORE_STATE)) as [->|H2]; [apply lookup_delete_eq|].
    rewrite lookup_delete_ne by done.
    destruct (decide (name = SERVICE_SAVE_STATE)) as [->|H3]; [apply lookup_delete_eq|].
    rewrite lookup_delete_ne by done.
    destruct (services (registry s) !! name) eqn:Hn; [|done].
    destruct (Hserv name) as [?|[?|?]]; eauto; done.
  - cbn. destruct (_cancel_save_interval (manager s)) eqn:Hc; cbn; [done|].
    destruct Htimer as [?|[? ?]]; done.
Qed.

Lemma unloaded_deliver s x : unloaded s → unloaded (deliver' s x).1.
Proof.
  intros [Hserv Htimer]. split; [|by apply deliver_timer_none].
  rewrite deliver_services, Hserv. by destruct x.
Qed.

(** X11. Once the entry has been unloaded, at whatever point of a run, the
    three services are gone for good: no service call reaches the manager
    any more.  A state-change listener that setup registered is not
    removed and stays registered, and unloading itself leaves the manager,
    its store included, as it was. *)
Theorem unload_removes_services (e : ConfigEntry) (w : World)
    (xs ys : list (stimulus World)) :
  let s := (run' (async_setup_entry w e) (xs ++ Unload :: ys)).1 in
  services (registry s) = ∅
  ∧ (∀ name entity_ids, deliver' s (ServiceCall name entity_ids) = (s, []))
  ∧ state_listener (registry s) = state_listener (registry (async_setup_entry w e))
  ∧ manager (run' (async_setup_entry w e) (xs ++ [Unload])).1
    = manager (run' (async_setup_entry w e) xs).1.
Proof.
  intros s.
  assert (unloaded s) as [Hserv Htimer].
  { unfold s. rewrite run_app. cbn [fst]. rewrite run_cons. cbn [fst].
    apply (run_invariant states_get async_call unloaded).
    - intros. by apply unloaded_deliver.
    - apply loaded_unload.
      apply (run_invariant states_get async_call loaded).
      + intros. by apply loaded_deliver.
      + apply setup_loaded. }
  split; [done|]. split; [|split].
  - intros name entity_ids. cbn [deliver]. by rewrite Hserv, lookup_empty.
  - rewrite setup_listener. apply (run_keeps_setup states_get async_call w e).
  - rewrite run_app. cbn [fst]. by rewrite run_cons.
Qed.

End UnloadProperties.

(** ** The entry points over a host with several entries *)

Section EntriesProperties.

Import Entries.

Context {World : Type}
        (states_get : World → string → option State)
        (async_call : World → string → string → gmap string value → World * bool).

Local Abbreviation call_service' := (call_service states_get async_call).

Lemma hass_eq (a b : Hass World) :
  hass_world a = hass_world b → hass_data a = hass_data b → objects a = objects b →
  hass_services a = hass_services b → hass_timers a = hass_timers b →
  hass_listeners a = hass_listeners b → hass_tasks a = hass_tasks b → a = b.
Proof. destruct a, b. simpl. by intros -> -> -> -> -> -> ->. Qed.

Lemma lookup_snoc_here {A} (l : list A) (x : A) : (l ++ [x])%list !! length l = Some x.
Proof. by rewrite lookup_app_r, Nat.sub_diag by lia. Qed.

Lemma insert_snoc_here {A} (l : list A) (x y : A) :
  <[length l := y]> (l ++ [x])%list = (l ++ [y])%list.
Proof. by rewrite insert_app_r_alt, Nat.sub_diag by lia. Qed.

(** What [async_setup_entry] makes of a host. *)
Lemma setup_entry_result entry_id e (h : Hass World) :
  async_setup_entry entry_id e h
  = (mkHass (hass_world h)
            (Some (<[entry_id := length (objects h)]> (default ∅ (hass_data h))))
            (objects h ++ [set_up e])
            (<[SERVICE_CLEAR_STATES := (length (objects h), clear_states_handler)]>
               (<[SERVICE_RESTORE_STATE := (length (objects h), restore_state_handler)]>
                  (<[SERVICE_SAVE_STATE := (length (objects h), save_state_handler)]>
                     (hass_services h))))
            (hass_timers h)
            (hass_listeners h
             ++ match registered_listener (data e) with
                | Some l => [(length (objects h), l)]
                | None => []
                end)
            (hass_tasks h),
     setup_completion e).
Proof.
  unfold async_setup_entry, async_setup, set_up, registered_listener, listener_of,
    setup_completion.
  cbn [set_data set_objects objects]. rewrite lookup_snoc_here.
  cbn [__init__ entry _states _motion_active _cancel_save_interval dt_util_timedelta].
  destruct (0 <? _)%Z.
  - f_equal. apply hass_eq; cbn; rewrite ?app_nil_r; reflexivity.
  - destruct (CONF_MOTION_SENSORS (data e)) as [[|x l]|]; f_equal;
      apply hass_eq; cbn; rewrite ?insert_snoc_here, ?app_nil_r; reflexivity.
Qed.

(** What [async_unload_entry] makes of a host that holds the entry. *)
Lemma unload_entry_result entry_id (h : Hass World) domain_data o self :
  hass_data h = Some domain_data → domain_data !! entry_id = Some o →
  objects h !! o = Some self →
  async_unload_entry entry_id h
  = (mkHass (hass_world h) (Some (delete entry_id domain_data)) (objects h)
            (delete SERVICE_CLEAR_STATES
               (delete SERVICE_RESTORE_STATE
                  (delete SERVICE_SAVE_STATE (hass_services h))))
            (match _cancel_save_interval self with
             | Some _ => delete o (hass_timers h)
             | None => hass_timers h
             end)
            (hass_listeners h) (hass_tasks h),
     Return true).
Proof.
  intros Hd Ho Hself. unfold async_unload_entry, async_unload. rewrite Hd, Ho.
  cbn [set_data objects]. rewrite Hself.
  by destruct (_cancel_save_interval self).
Qed.

Lemma domain_service_cases name :
  name = SERVICE_SAVE_STATE ∧ domain_service name = Some save_state_handler
  ∨ name = SERVICE_RESTORE_STATE ∧ domain_service name = Some restore_state_handler
  ∨ name = SERVICE_CLEAR_STATES ∧ domain_service name = Some clear_states_handler
  ∨ name ≠ SERVICE_SAVE_STATE ∧ name ≠ SERVICE_RESTORE_STATE
    ∧ name ≠ SERVICE_CLEAR_STATES ∧ domain_service name = None.
Proof.
  unfold domain_service.
  destruct (String.eqb_spec name SERVICE_SAVE_STATE) as [->|H1]; [by left|].
  destruct (String.eqb_spec name SERVICE_RESTORE_STATE) as [->|H2]; [by right; left|].
  destruct (String.eqb_spec name SERVICE_CLEAR_STATES) as [->|H3]; [by right; right; left|].
  by right; right; right.
Qed.

(** The services after setup registered its three for [o]. *)
Lemma registered_lookup (services : gmap string (nat * handler)) o name :
  <[SERVICE_CLEAR_STATES := (o, clear_states_handler)]>
    (<[SERVICE_RESTORE_STATE := (o, restore_state_handler)]>
       (<[SERVICE_SAVE_STATE := (o, save_state_handler)]> services)) !! name
  = match domain_service name with
    | Some m => Some (o, m)
    | None => services !! name
    end.
Proof.
  destruct (domain_service_cases name)
    as [[-> ->]|[[-> ->]|[[-> ->]|(H1 & H2 & H3 & ->)]]].
  - rewrite !lookup_insert_ne by done. apply lookup_insert_eq.
  - rewrite lookup_insert_ne by done. apply lookup_insert_eq.
  - apply lookup_insert_eq.
  - by rewrite !lookup_insert_ne.
Qed.

(** The services after unload removed the three. *)
Lemma removed_lookup (services : gmap string (nat * handler)) name :
  delete SERVICE_CLEAR_STATES
    (delete SERVICE_RESTORE_STATE (delete SERVICE_SAVE_STATE services)) !! name
  = match domain_service name with
    | Some _ => None
    | None => services !! name
    end.
Proof.
  destruct (domain_service_cases name)
    as [[-> ->]|[[-> ->]|[[-> ->]|(H1 & H2 & H3 & ->)]]].
  - rewrite !lookup_delete_ne by done. apply lookup_delete_eq.
  - rewrite lookup_delete_ne by done. apply lookup_delete_eq.
  - apply lookup_delete_eq.
  - by rewrite !lookup_delete_ne.
Qed.

(** What stays with the host after an entry was set up and unloaded
    again. *)
Lemma setup_unload_fields (entry_id : string) (e : ConfigEntry) (h : Hass World) :
  let o := length (objects h) in
  let setup := async_setup_entry entry_id e h in
  let r := async_unload_entry entry_id setup.1 in
  hass_data r.1 = Some (delete entry_id (default ∅ (hass_data h)))
  ∧ hass_listeners r.1
    = (hass_listeners h ++ match registered_listener (data e) with
                           | Some motion_sensors => [(o, motion_sensors)]
                           | None => []
                           end)%list
  ∧ objects r.1 = (objects h ++ [set_up e])%list.
Proof.
  intros o setup r. unfold r, setup. rewrite setup_entry_result. cbn [fst].
  erewrite unload_entry_result; [|reflexivity|apply lookup_insert_eq|apply lookup_snoc_here].
  cbn [fst hass_data hass_listeners objects]. fold o.
  split; [by rewrite delete_insert_eq|done].
Qed.


(** X13. Unloading an entry that [hass.data] does not hold raises
    [KeyError] and changes nothing: the key is the domain when no entry
    was ever set up, the entry id otherwise.  In particular a second
    unload of the same entry raises. *)
Theorem unload_entry_missing (entry_id : string) (h : Hass World) :
  (hass_data h = None →
   async_unload_entry entry_id h = (h, Raise (KeyError DOMAIN)))
  ∧ (∀ domain_data, hass_data h = Some domain_data → domain_data !! entry_id = None →
       async_unload_entry entry_id h = (h, Raise (KeyError entry_id)))
  ∧ (∀ e, let once := (async_unload_entry entry_id (async_setup_entry entry_id e h).1).1 in
          async_unload_entry entry_id once = (once, Raise (KeyError entry_id))).
Proof.
  split; [|split].
  - intros Hd. unfold async_unload_entry. by rewrite Hd.
  - intros domain_data Hd Hid. unfold async_unload_entry. by rewrite Hd, Hid.
  - intros e once.
    destruct (setup_unload_fields entry_id e h) as (Hd & _). fold once in Hd.
    unfold async_unload_entry. rewrite Hd. by rewrite lookup_delete_eq.
Qed.


Lemma length_snoc {A} (l : list A) (x : A) : length (l ++ [x])%list = S (length l).
Proof. rewrite length_app. cbn. lia. Qed.

(** X14. With two entries set up one after the other, the three services
    belong to the manager of the entry set up last, whether the setups
    returned or raised: a service call runs that manager's handler, and
    the manager of the earlier entry, which is still in
    [hass.data[DOMAIN]], is not touched by it. *)
Theorem last_setup_owns_services (id1 id2 : string) (e1 e2 : ConfigEntry)
    (h : Hass World) (name : string) (m : handler) (entity_ids : list string) :
  domain_service name = Some m →
  let o1 := length (objects h) in
  let h2 := (async_setup_entry id2 e2 (async_setup_entry id1 e1 h).1).1 in
  let ran := run_handler states_get async_call m entity_ids (hass_world h) (set_up e2) in
  let r := call_service' name entity_ids h2 in
  r.2 = effects ran
  ∧ hass_world r.1 = world ran
  ∧ objects r.1 !! S o1 = Some (self_after ran)
  ∧ objects r.1 !! o1 = Some (set_up e1).
Proof.
  intros Hm o1 h2 ran r. unfold r, h2. rewrite !setup_entry_result. cbn [fst].
  unfold call_service. cbn [hass_services objects hass_world].
  rewrite registered_lookup, Hm. unfold on_object. cbn [objects hass_world].
  rewrite lookup_snoc_here. fold ran. cbn [fst snd objects hass_world].
  rewrite insert_snoc_here. unfold o1.
  split; [done|]. split; [done|]. split.
  - rewrite <- (length_snoc (objects h) (set_up e1)). apply lookup_snoc_here.
  - rewrite lookup_app_l by (rewrite length_snoc; lia). apply lookup_snoc_here.
Qed.

(** X15. The service names are shared by all entries: with two entries
    set up, unloading either of them unregisters the three services, so a
    service call reaches nobody, although the other entry is still in
    [hass.data[DOMAIN]]. *)
Theorem unload_removes_shared_services (id1 id2 : string) (e1 e2 : ConfigEntry)
    (h : Hass World) (name : string) (entity_ids : list string) :
  id1 ≠ id2 →
  is_Some (domain_service name) →
  let o1 := length (objects h) in
  let h2 := (async_setup_entry id2 e2 (async_setup_entry id1 e1 h).1).1 in
  let later_unloaded := (async_unload_entry id2 h2).1 in
  let earlier_unloaded := (async_unload_entry id1 h2).1 in
  call_service' name entity_ids later_unloaded = (later_unloaded, [])
  ∧ (∃ domain_data, hass_data later_unloaded = Some domain_data
                    ∧ domain_data !! id1 = Some o1)
  ∧ call_service' name entity_ids earlier_unloaded = (earlier_unloaded, [])
  ∧ (∃ domain_data, hass_data earlier_unloaded = Some domain_data
                    ∧ domain_data !! id2 = Some (S o1)).
Proof.
  intros Hne [m Hm] o1 h2 later_unloaded earlier_unloaded.
  unfold later_unloaded, earlier_unloaded, h2.
  rewrite !setup_entry_result. cbn [fst objects hass_data default].
  rewrite length_snoc. unfold o1.
  erewrite (unload_entry_result id2);
    [|reflexivity|apply lookup_insert_eq
     |cbn [objects]; rewrite <- (length_snoc (objects h) (set_up e1)); apply lookup_snoc_here].
  erewrite (unload_entry_result id1);
    [|reflexivity|rewrite lookup_insert_ne by done; apply lookup_insert_eq
     |cbn [objects]; rewrite lookup_app_l by (rewrite length_snoc; lia);
      apply lookup_snoc_here].
  cbn [fst hass_data hass_services hass_timers].
  unfold call_service. cbn [hass_services].
  rewrite !removed_lookup, Hm.
  split; [done|]. split.
  { eexists. split; [done|].
    rewrite lookup_delete_ne by done. rewrite lookup_insert_ne by done.
    apply lookup_insert_eq. }
  split; [done|].
  eexists. split; [done|].
  rewrite lookup_delete_ne by done. apply lookup_insert_eq.
Qed.

Lemma motion_on_result motion_sensors event new_state (w : World) self :
  _setup_complete self = true →
  ev_entity_id event ∈ motion_sensors → ev_new_state event = Some new_state →
  state new_state = STATE_ON →
  handle_motion motion_sensors event w self
  = mkResult w
      (set_motion_active (<[ev_entity_id event := true]> (_motion_active self)) self)
      [CreateTask (get (data (entry self)) CONF_LIGHTS [])] Returned.
Proof.
  intros Hready Hin Hnew Hon. rewrite (motion_tracked _ _ new_state) by done.
  rewrite Hon. cbn [String.eqb]. change (String.eqb STATE_ON STATE_ON) with true.
  unfold _handle_motion_change. cbn [set_motion_active _setup_complete _motion_active entry].
  rewrite Hready. cbn [negb]. rewrite any_values_insert. done.
Qed.

(** X16. For an entry whose setup completes (save interval not above
    zero) and that has motion sensors: setup, unload and setup again
    leaves two state-change listeners, the one of the manager that was
    dropped and the one of the new manager.  A configured sensor that
    turns on then creates two restore tasks over the configured lights,
    one for each of the two managers, while [hass.data[DOMAIN]] holds the
    new one only. *)
Theorem reload_keeps_old_listener (entry_id : string) (e : ConfigEntry) (w : World)
    (motion_sensors : list string) (event : Event) (new_state : State) :
  (get (data e) CONF_SAVE_INTERVAL DEFAULT_SAVE_INTERVAL ≤ 0)%Z →
  listener_of (data e) = Some motion_sensors →
  ev_entity_id event ∈ motion_sensors →
  ev_new_state event = Some new_state →
  state new_state = STATE_ON →
  let once := (async_unload_entry entry_id
                 (async_setup_entry entry_id e (fresh_hass w)).1).1 in
  let h := (async_setup_entry entry_id e once).1 in
  let lights := get (data e) CONF_LIGHTS [] in
  (async_setup_entry entry_id e once).2 = Return true
  ∧ hass_data h = Some {[ entry_id := 1 ]}
  ∧ hass_listeners h = [(0, motion_sensors); (1, motion_sensors)]
  ∧ (state_changed event h).2 = [CreateTask lights; CreateTask lights]
  ∧ hass_tasks (state_changed event h).1 = [(0, lights); (1, lights)].
Proof.
  intros Hle Hlist_of Hin Hnew Hon once h lights.
  assert ((0 <? get (data e) CONF_SAVE_INTERVAL DEFAULT_SAVE_INTERVAL)%Z = false) as Hnot.
  { by apply Z.ltb_ge. }
  assert (registered_listener (data e) = Some motion_sensors) as Hl.
  { unfold registered_listener. by rewrite Hnot. }
  assert (_setup_complete (set_up e) = true) as Hready.
  { unfold set_up. cbn [_setup_complete]. by rewrite Hnot. }
  destruct (setup_unload_fields entry_id e (fresh_hass w))
    as (Hdata & Hlist & Hobj).
  fold once in Hdata, Hlist, Hobj. rewrite Hl in Hlist. cbn in Hdata, Hlist, Hobj.
  assert (hass_tasks once = []) as Htasks.
  { unfold once. rewrite setup_entry_result. cbn [fst].
    erewrite unload_entry_result;
      [done|reflexivity|apply lookup_insert_eq|apply (lookup_snoc_here [])]. }
  assert (hass_world once = w) as Hworld.
  { unfold once. rewrite setup_entry_result. cbn [fst].
    erewrite unload_entry_result;
      [done|reflexivity|apply lookup_insert_eq|apply (lookup_snoc_here [])]. }
  unfold h, state_changed. rewrite setup_entry_result.
  cbn [fst snd hass_data hass_listeners].
  rewrite Hdata, Hlist, Hobj, Hl, Htasks, Hworld. cbn [default length app].
  unfold id. rewrite delete_empty, insert_empty.
  split; [unfold setup_completion; by rewrite Hnot|].
  split; [done|]. split; [done|].
  cbn [notify]. unfold on_object. cbn [objects lookup list_lookup hass_world].
  rewrite !(motion_on_result motion_sensors event new_state _ _ Hready Hin Hnew Hon).
  cbn. rewrite !(motion_on_result motion_sensors event new_state _ _ Hready Hin Hnew Hon).
  done.
Qed.

End EntriesProperties.

(** ** The forms and the manager *)

Section FlowProperties.

Context {World : Type}
        (states_get : World → string → option State)
        (async_call : World → string → string → gmap string value → World * bool).

(** X17. Until the options have been edited, the options form shows for
    each key the value the manager reads from the entry: the light list
    that the timer handler saves, the transition that restore passes, the
    save interval that decides how setup ends, and the sensors of the
    listener that a setup that completes registers.  The form asks for
    the same keys, with the same selectors and bounds, as the form that
    created the entry. *)
Theorem options_form_shows_running_values (e : ConfigEntry) (w : World) :
  options e = mkConfig None None None None →
  let lights := get (data e) CONF_LIGHTS [] in
  let motion_sensors := get (data e) CONF_MOTION_SENSORS [] in
  let transition := get (data e) CONF_TRANSITION DEFAULT_TRANSITION in
  let save_interval := get (data e) CONF_SAVE_INTERVAL DEFAULT_SAVE_INTERVAL in
  let form := async_step_init e None in
  form_default form KEY_LIGHTS = Some (entity_list lights)
  ∧ form_default form KEY_MOTION_SENSORS = Some (entity_list motion_sensors)
  ∧ form_default form KEY_TRANSITION = Some transition
  ∧ form_default form KEY_SAVE_INTERVAL = Some (VInt save_interval)
  ∧ form_fields form = form_fields (async_step_user None)
  ∧ (∀ entity_ids w' self,
       entry self = e →
       _handle_restore_state async_call entity_ids w' self
       = restore_loop async_call transition entity_ids w' self)
  ∧ (∀ w' self,
       entry self = e → _setup_complete self = true →
       _handle_interval_save states_get w' self
       = _handle_save_state states_get lights w' self)
  ∧ async_setup_entry_outcome e
    = (if (0 <? save_interval)%Z then Raised (AttributeError "timedelta") else Returned)
  ∧ state_listener (registry (async_setup_entry w e))
    = (if (0 <? save_interval)%Z then None
       else match motion_sensors with [] => None | _ => Some motion_sensors end).
Proof.
  intros Hopt lights motion_sensors transition save_interval form.
  unfold form, async_step_init. rewrite Hopt.
  split; [done|]. split; [done|]. split; [done|]. split; [done|]. split; [done|].
  split; [|split; [|split]].
  - intros entity_ids w' self He. unfold _handle_restore_state. by rewrite He.
  - intros w' self He Hready. unfold _handle_interval_save. by rewrite Hready, He.
  - apply setup_outcome.
  - rewrite setup_listener. unfold registered_listener. fold save_interval.
    destruct (0 <? save_interval)%Z; [done|].
    unfold listener_of, motion_sensors, get.
    by destruct (CONF_MOTION_SENSORS (data e)) as [[|? ?]|].
Qed.

End FlowProperties.

(** ** How the handlers end *)

Section OutcomeProperties.

Context {World : Type}
        (states_get : World → string → option State)
        (async_call : World → string → string → gmap string value → World * bool).

Lemma restore_outcome_captured ids (w : World) self :
  captured (_states self) →
  outcome_of (_handle_restore_state async_call ids w self) = Returned
  ∨ outcome_of (_handle_restore_state async_call ids w self) = Raised ServiceCallFailed.
Proof.
  intros Hcap. unfold _handle_restore_state. set (t := get _ _ _). clearbody t.
  revert w. induction ids as [|i ids IH]; intros w; [by left|].
  cbn [restore_loop].
  destruct (_states self !! i) as [d|] eqn:Hi; [|apply IH].
  destruct (Hcap i d Hi) as [st ->]. rewrite get_light_state_state.
  destruct (not_state_on _); [apply IH|].
  destruct (async_call w _ _ _) as [w1 []]; simpl; [apply IH|by right].
Qed.

(** X18. In every state that a run reaches from a set-up system, the
    handlers end as follows: save, clear, the timer tick and the motion
    handler always return, and restore returns or ends in the failure of a
    service call; no handler raises [KeyError], because every stored
    snapshot has its ["state"]. *)
Theorem handlers_raise_only_on_call_failure (e : ConfigEntry) (w w' : World)
    (xs : list (stimulus World)) (entity_ids motion_sensors : list string)
    (event : Event) :
  let self := manager (run states_get async_call (async_setup_entry w e) xs).1 in
  (outcome_of (_handle_restore_state async_call entity_ids w' self) = Returned
   ∨ outcome_of (_handle_restore_state async_call entity_ids w' self)
     = Raised ServiceCallFailed)
  ∧ outcome_of (_handle_save_state states_get entity_ids w' self) = Returned
  ∧ outcome_of (_handle_clear_states entity_ids w' self) = Returned
  ∧ outcome_of (_handle_interval_save states_get w' self) = Returned
  ∧ outcome_of (handle_motion motion_sensors event w' self) = Returned.
Proof.
  intros self.
  split; [apply restore_outcome_captured, run_captured|].
  split; [apply save_outcome|].
  split; [by destruct (clear_frame entity_ids w' self) as (_ & _ & ? & _)|].
  split.
  - unfold _handle_interval_save. destruct (_setup_complete self); [|done].
    apply save_outcome.
  - by destruct (motion_frame motion_sensors event w' self) as (_ & ? & _).
Qed.

End OutcomeProperties.

(** ** The further properties on the concrete host *)

Section MoreConcrete.

Import Demo.

Local Abbreviation save := (_handle_save_state Demo.states_get).
Local Abbreviation restore := (_handle_restore_state Demo.async_call).

(** Saving the desk light again after a save over three identifiers. *)
Lemma save_again_same_store_witness :
  self_after (save ["light.desk"] home
                (self_after (save ["light.kitchen"; "switch.x"; "light.desk"] home
                               (__init__ the_entry))))
  = self_after (save ["light.kitchen"; "switch.x"; "light.desk"] home (__init__ the_entry)).
Proof.
  refine (proj1 (save_again_same_store Demo.states_get
                   ["light.kitchen"; "switch.x"; "light.desk"] ["light.desk"] home
                   (__init__ the_entry) _)).
  intros x Hx. apply list_elem_of_singleton in Hx as ->. right. right. left.
Defined.

(** The notification of the kitchen light and the store agree. *)
Lemma saved_event_is_stored_witness :
  _states (self_after (save ["light.hall"; "light.kitchen"] home (__init__ the_entry)))
    !! "light.kitchen"
  = Some (_get_light_state kitchen_on).
Proof.
  refine (saved_event_is_stored Demo.states_get ["light.hall"; "light.kitchen"] home
            (__init__ the_entry) "light.kitchen" (_get_light_state kitchen_on) _).
  vm_compute. right. left.
Defined.

(** Two spellings of the same two lights. *)
Lemma clear_by_membership_witness :
  _handle_clear_states ["light.kitchen"; "light.desk"] home saved
  = _handle_clear_states ["light.desk"; "light.kitchen"; "light.desk"] home saved.
Proof.
  refine (proj1 (clear_by_membership ["light.kitchen"; "light.desk"]
                   ["light.desk"; "light.kitchen"; "light.desk"] home saved _)).
  intros x. rewrite !elem_of_cons, !elem_of_nil. tauto.
Defined.

(** The kitchen light was saved on, then cleared: restore leaves it. *)
Lemma restore_after_clear_witness :
  restore ["light.kitchen"] broken_home
    (self_after (_handle_clear_states ["light.kitchen"; "light.hall"] home saved))
  = mkResult broken_home
      (self_after (_handle_clear_states ["light.kitchen"; "light.hall"] home saved))
      [] Returned.
Proof.
  refine (restore_after_clear Demo.async_call ["light.kitchen"; "light.hall"]
            ["light.kitchen"] home broken_home saved _).
  intros x Hx. apply list_elem_of_singleton in Hx as ->. left.
Defined.

(** With every command acknowledged, the kitchen light listed twice is
    restored twice and the hall light, saved off, not at all. *)
Lemma restore_acknowledged_witness :
  outcome_of (_handle_restore_state (@steady_call Demo.World)
                ["light.kitchen"; "light.hall"; "light.kitchen"] home saved) = Returned
  ∧ count_calls (effects (_handle_restore_state (@steady_call Demo.World)
                            ["light.kitchen"; "light.hall"; "light.kitchen"] home saved))
    = 2%nat.
Proof.
  destruct (restore_acknowledged (@steady_call Demo.World)
              ["light.kitchen"; "light.hall"; "light.kitchen"] home saved
              saved_captured (λ _ _, eq_refl)) as [Hout Heff].
  split; [exact Hout|]. rewrite Heff. vm_compute. reflexivity.
Defined.

(** Sensor b is active; sensor a reports off and a restore is scheduled
    all the same. *)
Lemma motion_schedules_witness :
  effects (handle_motion ["binary_sensor.a"; "binary_sensor.b"]
             (mkEvent "binary_sensor.a" (Some (mkState "off" ∅))) home
             (self_after (handle_motion ["binary_sensor.a"; "binary_sensor.b"]
                            (mkEvent "binary_sensor.b" (Some (mkState "on" ∅))) home
                            (set_up motion_entry))))
  = [CreateTask ["light.kitchen"; "light.hall"]].
Proof.
  refine (eq_trans
    (motion_schedules ["binary_sensor.a"; "binary_sensor.b"]
       (mkEvent "binary_sensor.a" (Some (mkState "off" ∅))) (mkState "off" ∅) home
       (self_after (handle_motion ["binary_sensor.a"; "binary_sensor.b"]
                      (mkEvent "binary_sensor.b" (Some (mkState "on" ∅))) home
                      (set_up motion_entry))) _ _ _) _).
  - vm_compute. reflexivity.
  - left.
  - reflexivity.
  - vm_compute. reflexivity.
Defined.

(** Sensor a turned on and sensor b off, in a system whose setup
    completed: the map says so. *)
Lemma motion_map_last_reported_witness :
  let xs := [StateChanged (mkEvent "binary_sensor.a" (Some (mkState "on" ∅)));
             ServiceCall SERVICE_CLEAR_STATES ["light.kitchen"];
             StateChanged (mkEvent "binary_sensor.b" (Some (mkState "off" ∅)));
             StateChanged (mkEvent "binary_sensor.a" None)] in
  _motion_active (manager (run Demo.states_get Demo.async_call
                             (async_setup_entry home motion_entry) xs).1)
    !! "binary_sensor.a" = Some true
  ∧ listened_sensors (data motion_entry) = ["binary_sensor.a"; "binary_sensor.b"].
Proof.
  intros xs.
  destruct (motion_map_last_reported Demo.states_get Demo.async_call motion_entry home
              xs "binary_sensor.a") as (Hmap & Hle & _).
  split.
  - rewrite Hmap. vm_compute. reflexivity.
  - apply Hle. exact (Z.le_refl 0).
Defined.

(** Nothing was ever set up: the domain itself is the missing key. *)
Lemma unload_entry_missing_witness :
  Entries.async_unload_entry "entry-1" (Entries.fresh_hass home)
  = (Entries.fresh_hass home, Entries.Raise (KeyError DOMAIN)).
Proof.
  exact (proj1 (unload_entry_missing "entry-1" (Entries.fresh_hass home)) eq_refl).
Defined.

(** The entry with the edited options is set up after the first one and
    takes the save service; the first manager keeps its empty store. *)
Lemma last_setup_owns_services_witness :
  Entries.objects
    (Entries.call_service Demo.states_get Demo.async_call
       SERVICE_SAVE_STATE ["light.kitchen"]
       (Entries.async_setup_entry "entry-2" edited_entry
          (Entries.async_setup_entry "entry-1" the_entry (Entries.fresh_hass home)).1).1).1
    !! 0%nat
  = Some (set_up the_entry).
Proof.
  exact (proj2 (proj2 (proj2
    (last_setup_owns_services Demo.states_get Demo.async_call "entry-1" "entry-2"
       the_entry edited_entry (Entries.fresh_hass home) SERVICE_SAVE_STATE
       save_state_handler ["light.kitchen"] eq_refl)))).
Defined.

(** Unloading the second entry: the save service is gone for the first. *)
Lemma unload_removes_shared_services_witness :
  let h := (Entries.async_unload_entry "entry-2"
              (Entries.async_setup_entry "entry-2" edited_entry
                 (Entries.async_setup_entry "entry-1" the_entry
                    (Entries.fresh_hass home)).1).1).1 in
  Entries.call_service Demo.states_get Demo.async_call
    SERVICE_SAVE_STATE ["light.kitchen"] h
  = (h, []).
Proof.
  refine (proj1 (unload_removes_shared_services Demo.states_get Demo.async_call
                   "entry-1" "entry-2" the_entry edited_entry (Entries.fresh_hass home)
                   SERVICE_SAVE_STATE ["light.kitchen"] _ _)).
  - discriminate.
  - exists save_state_handler. reflexivity.
Defined.

(** Sensor a turns on after a reload: two restore tasks. *)
Lemma reload_keeps_old_listener_witness :
  (Entries.state_changed
     (mkEvent "binary_sensor.a" (Some (mkState "on" ∅)))
     (Entries.async_setup_entry "entry-1" motion_entry
        (Entries.async_unload_entry "entry-1"
           (Entries.async_setup_entry "entry-1" motion_entry
              (Entries.fresh_hass home)).1).1).1).2
  = [CreateTask ["light.kitchen"; "light.hall"];
     CreateTask ["light.kitchen"; "light.hall"]].
Proof.
  refine (proj1 (proj2 (proj2 (proj2
    (reload_keeps_old_listener "entry-1" motion_entry home
       ["binary_sensor.a"; "binary_sensor.b"]
       (mkEvent "binary_sensor.a" (Some (mkState "on" ∅))) (mkState "on" ∅)
       _ _ _ _ _))))).
  - exact (Z.le_refl 0).
  - reflexivity.
  - left.
  - reflexivity.
  - reflexivity.
Defined.

(** The entry as created: the options form shows its 2.5 s and 60 s. *)
Lemma options_form_shows_running_values_witness :
  form_default (async_step_init the_entry None) KEY_TRANSITION = Some (VFloat (5 # 2))
  ∧ form_default (async_step_init the_entry None) KEY_SAVE_INTERVAL = Some (VInt 60).
Proof.
  destruct (options_form_shows_running_values Demo.states_get Demo.async_call
              the_entry home eq_refl) as (_ & _ & Ht & Hs & _).
  split; [exact Ht|exact Hs].
Defined.

End MoreConcrete.
